(** * batgrl / nurses_2: widget geometry, dispatch, clipping, compositing, tweens

    A shallow embedding of the compositing and geometry engine:
    - [Widget.update_geometry] and the size / position setters
      (src/nurses_2/widgets/widget.py),
    - the event dispatchers [Widget.dispatch_*],
    - the clipper [Widget.render_intersection],
    - the subscription registry ([emitter], [subscribe], [unsubscribe]),
    - the coroutine [Widget.tween],
    - [Graphics.alpha] and [Graphics.render]
      (src/batgrl/gadgets/graphics.py).

    Conventions.  Python [int] is [Z].  Python [float] is modelled by the exact
    rationals [Qc]: every value used in the concrete scenarios below is a dyadic
    rational whose float arithmetic is exact, but NaN, the infinities and the
    rounding error of IEEE arithmetic are outside the model.  [None] is
    [option]'s [None].  A raised exception is a value of an error type. *)

From Stdlib Require Import ZArith QArith Qcanon Qround Lia List Bool.
From stdpp Require Import base option list strings gmap.

Open Scope Z_scope.

(* ===================================================================== *)
(** * Python numbers *)
(* ===================================================================== *)

(** Python [float], idealised. *)
Abbreviation float := Qc.

Module Num.

(** The implicit [int -> float] conversion of mixed arithmetic. *)
Definition of_int (z : Z) : float := Qc_of_Z z.

Definition zero : float := of_int 0.
Definition one : float := of_int 1.
Definition half : float := Q2Qc (1 # 2).

Definition ltb (x y : float) : bool :=
  match (x ?= y)%Qc with Lt => true | _ => false end.

Definition gtb (x y : float) : bool := ltb y x.

(** Mathematical floor, the word the specification uses. *)
Definition floor (x : float) : Z := Qfloor (this x).

(** [int(x)] on a float: truncation toward zero. *)
Definition py_int (x : float) : Z :=
  if ltb x zero then Qceiling (this x) else Qfloor (this x).

(** [round(x)] on a float, one argument: the nearest integer, a tie going
    to the even neighbour. *)
Definition py_round (x : float) : Z :=
  let f := Qfloor (this x) in
  match (x - of_int f ?= half)%Qc with
  | Lt => f
  | Gt => f + 1
  | Eq => if Z.even f then f else f + 1
  end.

(** [max(a, b)] of the built-ins: the first argument unless the second is
    strictly greater. *)
Definition py_max (a b : float) : float := if gtb b a then b else a.

End Num.

(** The comparison [<] that [clamp] applies to its arguments, at the two
    number types it is called with. *)
Class PyLt (A : Type) := py_lt : A -> A -> bool.
#[global] Instance int_lt : PyLt Z := Z.ltb.
#[global] Instance float_lt : PyLt float := Num.ltb.

(** Modelled from the spec: [clamp] (nurses_2/clamp.py, batgrl's
    gadgets/gadget.py) is imported by both source files and defined in
    neither.  The specification has "clamp to [min, max] (treating an unset
    bound as unbounded)": a value below a set [min] becomes [min], a value
    above a set [max] becomes [max], any other value is returned as it is. *)
Definition clamp {A : Type} `{PyLt A} (value : A) (min max : option A) : A :=
  match min with
  | Some lo =>
      if py_lt value lo then lo
      else match max with
           | Some hi => if py_lt hi value then hi else value
           | None => value
           end
  | None =>
      match max with
      | Some hi => if py_lt hi value then hi else value
      | None => value
      end
  end.

(* ===================================================================== *)
(** * The widget tree: data model *)
(* ===================================================================== *)

Definition Size : Set := (Z * Z)%type.          (* (height, width) *)
Definition Point : Set := (Z * Z)%type.         (* (y, x) *)
Definition SizeHint : Set := (option float * option float)%type.
Definition PosHint : Set := (option float * option float)%type.

Inductive Anchor : Set :=
| TOP_LEFT | TOP_RIGHT | BOTTOM_LEFT | BOTTOM_RIGHT | CENTER
| TOP_CENTER | BOTTOM_CENTER | LEFT_CENTER | RIGHT_CENTER.

(** Input events are opaque to the dispatchers; only the handlers read them.
    The [io] module that declares them is not part of the sources read here. *)
Variant KeyPressEvent : Set := KeyPress (code : nat).
Variant MouseEvent : Set := Mouse (position : Point) (button : nat).
Variant PasteEvent : Set := Paste (text : string).

(** What a handler returns, read through Python truthiness
    ([True] against [False] or [None]). *)
Record Handlers : Set := mkHandlers {
  on_press : KeyPressEvent -> bool;
  on_click : MouseEvent -> bool;
  on_double_click : MouseEvent -> bool;
  on_triple_click : MouseEvent -> bool;
  on_paste : PasteEvent -> bool
}.

(** The handlers of the base class: each body is a docstring and returns
    [None]. *)
Definition no_handlers : Handlers :=
  mkHandlers (fun _ => false) (fun _ => false) (fun _ => false)
             (fun _ => false) (fun _ => false).

(** A widget with the subtree it owns.  [ident] stands for the identity of
    the Python object.  The back-reference [parent] is not stored: the one
    thing [update_geometry] reads through it, the parent's size, is passed
    in by the caller. *)
#[warnings="-register-all"]
Inductive Widget : Set := mkWidget {
  ident : nat;
  size : Size;
  pos : Point;
  size_hint : SizeHint;
  min_height : option Z;
  max_height : option Z;
  min_width : option Z;
  max_width : option Z;
  pos_hint : PosHint;
  anchor : Anchor;
  is_transparent : bool;
  is_visible : bool;
  is_enabled : bool;
  handlers : Handlers;
  children : list Widget
}.

Definition height (self : Widget) : Z := fst (size self).
Definition width (self : Widget) : Z := snd (size self).
Definition top (self : Widget) : Z := fst (pos self).
Definition left (self : Widget) : Z := snd (pos self).
Definition bottom (self : Widget) : Z := top self + height self.
Definition right (self : Widget) : Z := left self + width self.
Definition height_hint (self : Widget) : option float := fst (size_hint self).
Definition width_hint (self : Widget) : option float := snd (size_hint self).
Definition y_hint (self : Widget) : option float := fst (pos_hint self).
Definition x_hint (self : Widget) : option float := snd (pos_hint self).

(** [Widget.center]: [Point(self.height // 2, self.width // 2)]. *)
Definition center (self : Widget) : Point := (height self / 2, width self / 2).

(** Assignments to the private attributes. *)
Definition with_size (self : Widget) (s : Size) : Widget :=
  mkWidget (ident self) s (pos self) (size_hint self)
           (min_height self) (max_height self) (min_width self) (max_width self)
           (pos_hint self) (anchor self)
           (is_transparent self) (is_visible self) (is_enabled self)
           (handlers self) (children self).

Definition with_pos (self : Widget) (p : Point) : Widget :=
  mkWidget (ident self) (size self) p (size_hint self)
           (min_height self) (max_height self) (min_width self) (max_width self)
           (pos_hint self) (anchor self)
           (is_transparent self) (is_visible self) (is_enabled self)
           (handlers self) (children self).

Definition with_size_hint (self : Widget) (sh : SizeHint) : Widget :=
  mkWidget (ident self) (size self) (pos self) sh
           (min_height self) (max_height self) (min_width self) (max_width self)
           (pos_hint self) (anchor self)
           (is_transparent self) (is_visible self) (is_enabled self)
           (handlers self) (children self).

Definition with_pos_hint (self : Widget) (ph : PosHint) : Widget :=
  mkWidget (ident self) (size self) (pos self) (size_hint self)
           (min_height self) (max_height self) (min_width self) (max_width self)
           ph (anchor self)
           (is_transparent self) (is_visible self) (is_enabled self)
           (handlers self) (children self).

Definition with_children (self : Widget) (cs : list Widget) : Widget :=
  mkWidget (ident self) (size self) (pos self) (size_hint self)
           (min_height self) (max_height self) (min_width self) (max_width self)
           (pos_hint self) (anchor self)
           (is_transparent self) (is_visible self) (is_enabled self)
           (handlers self) cs.

(** [Widget.__init__] with its keyword defaults: the arguments are stored
    as given. *)
Definition Widget_init (id : nat) (size : Size) (pos : Point)
    (size_hint : SizeHint) (min_width max_width min_height max_height : option Z)
    (pos_hint : PosHint) (anchor : Anchor)
    (is_transparent is_visible is_enabled : bool) : Widget :=
  mkWidget id size pos size_hint min_height max_height min_width max_width
           pos_hint anchor is_transparent is_visible is_enabled
           no_handlers [].

Definition default_widget (id : nat) : Widget :=
  Widget_init id (10, 10) (0, 0) (None, None) None None None None
              (None, None) TOP_LEFT false true true.

(* ===================================================================== *)
(** * Geometry: the size and position setters, [update_geometry] *)
(* ===================================================================== *)

(** The [pos] setter and the two coordinate setters built on it. *)
Definition set_pos (self : Widget) (point : Point) : Widget := with_pos self point.
Definition set_top (self : Widget) (t : Z) : Widget := set_pos self (t, left self).
Definition set_left (self : Widget) (l : Z) : Widget := set_pos self (top self, l).

(** The body of the [size] setter, with the call [child.update_geometry()]
    left open: clamp both dimensions to at least 1, run [on_size] (empty in
    [Widget]), then re-resolve every child against the new size.  The
    actions that the [emitter] wrapper of a setter runs for its subscribers
    are taken to leave the tree alone. *)
Definition size_setter (child_update_geometry : Size -> Widget -> Widget)
    (self : Widget) (new_size : Size) : Widget :=
  let '(h, w) := new_size in
  let clamped := (clamp h (Some 1) None, clamp w (Some 1) None) in
  with_children (with_size self clamped)
                (map (child_update_geometry clamped) (children self)).

(** The anchor offsets of [update_geometry]'s [match self.anchor]. *)
Definition anchor_offset (self : Widget) : Z * Z :=
  match anchor self with
  | TOP_LEFT => (0, 0)
  | TOP_RIGHT => (0, width self)
  | BOTTOM_LEFT => (height self, 0)
  | BOTTOM_RIGHT => (height self, width self)
  | CENTER => center self
  | TOP_CENTER => (0, snd (center self))
  | BOTTOM_CENTER => (height self, snd (center self))
  | LEFT_CENTER => (fst (center self), 0)
  | RIGHT_CENTER => (fst (center self), width self)
  end.

(** [Widget.update_geometry].  [parent] is [self.parent.size], or [None]
    when [self.parent is None]. *)
Fixpoint update_geometry (parent : option Size) (self : Widget) {struct self}
  : Widget :=
  match parent with
  | None => self
  | Some (h, w) =>
      let self :=
        match size_hint self with
        | (None, None) => self
        | (h_hint, w_hint) =>
            let height' :=
              match h_hint with
              | None => height self
              | Some h_hint =>
                  clamp (Num.py_round (h_hint * Num.of_int h)%Qc)
                        (min_height self) (max_height self)
              end in
            let width' :=
              match w_hint with
              | None => width self
              | Some w_hint =>
                  clamp (Num.py_round (w_hint * Num.of_int w)%Qc)
                        (min_width self) (max_width self)
              end in
            size_setter (fun s child => update_geometry (Some s) child)
                        self (height', width')
        end in
      match pos_hint self with
      | (None, None) => self
      | (y_hint, x_hint) =>
          let '(offset_top, offset_left) := anchor_offset self in
          let self :=
            match y_hint with
            | Some y_hint =>
                set_top self (Num.py_int (Num.of_int h * y_hint)%Qc - offset_top)
            | None => self
            end in
          match x_hint with
          | Some x_hint =>
              set_left self (Num.py_int (Num.of_int w * x_hint)%Qc - offset_left)
          | None => self
          end
      end
  end.

(** The [size] setter. *)
Definition set_size : Widget -> Size -> Widget :=
  size_setter (fun s child => update_geometry (Some s) child).

Definition set_height (self : Widget) (h : Z) : Widget := set_size self (h, width self).
Definition set_width (self : Widget) (w : Z) : Widget := set_size self (height self, w).

(** The [size_hint] setter: negative hints are raised to 0.0; geometry is
    resolved when the widget has a parent. *)
Definition set_size_hint (parent : option Size) (self : Widget) (sh : SizeHint)
  : Widget :=
  let '(h, w) := sh in
  let self := with_size_hint self
                (option_map (fun h => Num.py_max h Num.zero) h,
                 option_map (fun w => Num.py_max w Num.zero) w) in
  update_geometry parent self.

(** The [pos_hint] setter. *)
Definition set_pos_hint (parent : option Size) (self : Widget) (ph : PosHint)
  : Widget :=
  update_geometry parent (with_pos_hint self ph).

(** [add_widget]: append the child, set its parent, resolve its geometry. *)
Definition add_widget (self child : Widget) : Widget :=
  with_children self (children self ++ [update_geometry (Some (size self)) child]).

(* ===================================================================== *)
(** * Event dispatch *)
(* ===================================================================== *)

(** A dispatcher returns the handlers it ran, in the order it ran them (each
    named by the widget it belongs to), and whether the event was handled.
    Handlers are taken not to edit the tree while the event travels. *)
Definition Dispatched : Set := (list nat * bool)%type.

(** [any(...)] over a generator expression.  An element of [gen] is the
    filter of the generator ([if widget.is_enabled]) with the call it guards;
    the call is run only when [any] reaches it, so the handlers of the
    elements behind the first truthy one never run. *)
Fixpoint any_lazy (gen : list (bool * Dispatched)) : Dispatched :=
  match gen with
  | [] => ([], false)
  | (false, _) :: rest => any_lazy rest
  | (true, (calls, true)) :: _ => (calls, true)
  | (true, (calls, false)) :: rest =>
      let '(calls', handled) := any_lazy rest in (calls ++ calls', handled)
  end.

Section Dispatch.

Context {Event : Type}.
(** [self.on_press], [self.on_click], ...: the handler of the kind of
    event being dispatched. *)
Variable on_event : Widget -> Event -> bool.

(** The common body of the five dispatchers:
    [any(widget.dispatch(e) for widget in reversed(self.children)
         if widget.is_enabled) or self.on_event(e)]. *)
Fixpoint dispatch (event : Event) (self : Widget) {struct self} : Dispatched :=
  let '(calls, handled) :=
    any_lazy (rev (map (fun widget => (is_enabled widget, dispatch event widget))
                       (children self))) in
  if handled then (calls, true)
  else (calls ++ [ident self], on_event self event).

End Dispatch.

Definition dispatch_press : KeyPressEvent -> Widget -> Dispatched :=
  dispatch (fun self => on_press (handlers self)).
Definition dispatch_click : MouseEvent -> Widget -> Dispatched :=
  dispatch (fun self => on_click (handlers self)).
Definition dispatch_double_click : MouseEvent -> Widget -> Dispatched :=
  dispatch (fun self => on_double_click (handlers self)).
Definition dispatch_triple_click : MouseEvent -> Widget -> Dispatched :=
  dispatch (fun self => on_triple_click (handlers self)).
Definition dispatch_paste : PasteEvent -> Widget -> Dispatched :=
  dispatch (fun self => on_paste (handlers self)).

(** The dispatch policy in the specification's words: the widgets an event
    may reach, in the order it reaches them.  Children are taken last to
    first, a disabled child is left out with everything below it, every kept
    child contributes its own sequence, and the widget itself comes last. *)
Fixpoint topmost_first (self : Widget) : list Widget :=
  concat (rev (map (fun child => if is_enabled child then topmost_first child else [])
                   (children self)))
  ++ [self].

(** The prefix of [l] that ends with its first element satisfying [p]
    (all of [l] when there is none). *)
Fixpoint up_to_first {A : Type} (p : A -> bool) (l : list A) : list A :=
  match l with
  | [] => []
  | x :: l' => if p x then [x] else x :: up_to_first p l'
  end.

(* ===================================================================== *)
(** * Clipped rendering *)
(* ===================================================================== *)

(** A Python [slice(start, stop)] with both ends given. *)
Record slice : Set := mkSlice { start : Z; stop : Z }.

Definition Slices : Set := (slice * slice)%type.    (* (rows, columns) *)

(** One call [self.render(canvas_view[dest_slice], colors_view[dest_slice],
    source)]: who paints, the part of the caller's views handed over, and
    the part of the widget it shows. *)
Record RenderCall : Set := mkRenderCall {
  painter : nat;
  dest_slice : Slices;
  source : Slices
}.

(** The cases for one axis of [render_intersection]: with the widget's
    leading and trailing edge relative to the destination ([w0], [w1]), the
    destination's extent [ext] and the widget's own extent [own], the source
    start and stop and the destination start and stop. *)
Definition clip_axis (w0 w1 ext own : Z) : Z * Z * Z * Z :=
  if w0 <? 0 then
    let s0 := - w0 in
    let d0 := 0 in
    if w1 >=? ext then (s0, ext + s0, d0, ext)
    else (s0, own, d0, w1)
  else
    let s0 := 0 in
    let d0 := w0 in
    if w1 >=? ext then (s0, ext - d0, d0, ext)
    else (s0, own, d0, w1).

(** [Widget.render_intersection], with [Widget.render] and
    [Widget.render_children] in line: the result lists the [render] calls
    made, in order.  [render] hands its [source] to [render_children] as the
    children's destination. *)
Fixpoint render_intersection (destination : Slices) (self : Widget) {struct self}
  : list RenderCall :=
  let '(vert_slice, hori_slice) := destination in
  let t := start vert_slice in
  let h := stop vert_slice - t in
  let l := start hori_slice in
  let w := stop hori_slice - l in
  let wt := top self - t in
  let wb := bottom self - t in
  let wl := left self - l in
  let wr := right self - l in
  if (wt >=? h) || (wb <? 0) || (wl >=? w) || (wr <? 0) then
    []    (* widget doesn't intersect *)
  else
    let '(st, sb, dt, db) := clip_axis wt wb h (height self) in
    let '(sl, sr, dl, dr) := clip_axis wl wr w (width self) in
    let dest := (mkSlice dt db, mkSlice dl dr) in
    let src := (mkSlice st sb, mkSlice sl sr) in
    mkRenderCall (ident self) dest src
    :: flat_map (fun child =>
                   if is_visible child && is_enabled child
                   then render_intersection src child
                   else [])
                (children self).

(** [Widget.render_children]. *)
Definition render_children (destination : Slices) (self : Widget) : list RenderCall :=
  flat_map (fun child =>
              if is_visible child && is_enabled child
              then render_intersection destination child
              else [])
           (children self).

(** The half-open intervals [[a0, a1)] and [[b0, b1)] share no point. *)
Definition intervals_disjoint (a0 a1 b0 b1 : Z) : bool :=
  (Z.min a1 b1 <=? Z.max a0 b0).

(** The widget lies outside the destination: its rows or its columns do not
    meet the destination's. *)
Definition outside (destination : Slices) (self : Widget) : bool :=
  let '(vert_slice, hori_slice) := destination in
  intervals_disjoint (top self) (bottom self) (start vert_slice) (stop vert_slice)
  || intervals_disjoint (left self) (right self) (start hori_slice) (stop hori_slice).

(* ===================================================================== *)
(** * Exceptions *)
(* ===================================================================== *)

Variant Exception : Set :=
| AttributeError | KeyError | TypeError | UnboundLocalError | ZeroDivisionError.

Variant result (A : Type) : Type :=
| Ok (value : A)
| Raise (exc : Exception).
Arguments Ok {A} value.
Arguments Raise {A} exc.

Definition bind {A B : Type} (r : result A) (k : A -> result B) : result B :=
  match r with
  | Ok a => k a
  | Raise e => Raise e
  end.

Notation "x <-! r ; k" := (bind r (fun x => k))
  (at level 100, r at next level, right associativity, only parsing).

(* ===================================================================== *)
(** * Property subscriptions: [emitter], [subscribe], [unsubscribe] *)
(* ===================================================================== *)

Module Subscriptions.

(** A subscribed callable, by identity. *)
Definition Action : Set := nat.

(** [wrapper.instances] of one emitter: source widget to its subscribers,
    each subscriber with its action.  Widgets are keyed by identity.  The
    dictionaries are weak; no widget is collected in this model. *)
Abbreviation Instances := (gmap nat (gmap nat Action)).

(** One [instances] dictionary per property whose setter is decorated
    with [@emitter], keyed by the property's name. *)
Abbreviation Registry := (gmap string Instances).

(** The properties of [Widget] whose setter is an emitter. *)
Definition emitters : list string :=
  ["size"; "pos"; "size_hint"; "min_height"; "max_height"; "min_width";
   "max_width"; "pos_hint"; "anchor"; "background_char"].

(** The registry when the class has just been defined: every emitter's
    [instances] is an empty dictionary. *)
Definition fresh : Registry :=
  list_to_map (map (fun attr => (attr, (∅ : Instances))) emitters).

(** [getattr(type(source), attr).fset.instances]: only an emitter has it. *)
Definition fset_instances (reg : Registry) (attr : string) : result Instances :=
  match reg !! attr with
  | Some instances => Ok instances
  | None => Raise AttributeError
  end.

(** [Widget.subscribe]:
    [subscribers = setter.instances.setdefault(source, WeakKeyDictionary());
     subscribers[self] = action]. *)
Definition subscribe (reg : Registry) (self source : nat) (attr : string)
    (action : Action) : result Registry :=
  instances <-! fset_instances reg attr;
  let subscribers := default ∅ (instances !! source) in
  Ok (<[attr := <[source := <[self := action]> subscribers]> instances]> reg).

(** [Widget.unsubscribe]:
    [return setter.instances[source].pop(self, None)].  The result is the
    popped action (or [None]) with the registry after the pop. *)
Definition unsubscribe (reg : Registry) (self source : nat) (attr : string)
  : result (option Action * Registry) :=
  instances <-! fset_instances reg attr;
  match instances !! source with
  | None => Raise KeyError
  | Some subscribers =>
      Ok (subscribers !! self,
          <[attr := <[source := delete self subscribers]> instances]> reg)
  end.

(** [self] has an action registered for [attr] of [source]. *)
Definition registered (reg : Registry) (self source : nat) (attr : string) : Prop :=
  exists instances subscribers,
    reg !! attr = Some instances /\ instances !! source = Some subscribers
    /\ is_Some (subscribers !! self).

End Subscriptions.

(* ===================================================================== *)
(** * Tweens *)
(* ===================================================================== *)

Module Tween.

(** The values [tween] can interpolate: a number, or a sequence whose
    items are numbers or [None].  Anything else is [VOther]. *)
Variant Number : Set := Int (i : Z) | Float (x : float).

Variant Value : Set :=
| VNum (n : Number)
| VSeq (items : list (option Number))
| VOther.

Definition to_float (n : Number) : float :=
  match n with
  | Int i => Num.of_int i
  | Float x => x
  end.

(** Modelled from the spec: [easings.lerp] is called by [tween] and defined
    in a module that is not among the sources.  The specification has
    "linearly interpolate component-wise between the snapshotted start
    value and the target using p". *)
Definition lerp (a b : Number) (p : float) : float :=
  ((1 - p) * to_float a + p * to_float b)%Qc.

(** Modelled from the spec: [easings.linear], the "linear easing" of the
    specification, is the identity on the progress. *)
Definition linear (p : float) : float := p.

(** [lerp] applied to items of sequences: arithmetic on [None] raises. *)
Definition lerp_item (i j : option Number) (p : float) : result float :=
  match i, j with
  | Some a, Some b => Ok (lerp a b p)
  | _, _ => Raise TypeError
  end.

(** A tuple built from a generator: the first item that raises ends it. *)
Fixpoint all_ok {A : Type} (rs : list (result A)) : result (list A) :=
  match rs with
  | [] => Ok []
  | r :: rs' => x <-! r; xs <-! all_ok rs'; Ok (x :: xs)
  end.

(** Python's [zip]: as long as the shorter argument. *)
Fixpoint zip {A B : Type} (l : list A) (l' : list B) : list (A * B) :=
  match l, l' with
  | x :: l, y :: l' => (x, y) :: zip l l'
  | _, _ => []
  end.

(** The [match start_value] of one property.  [Ok None] is the fall
    through: no case matched and [value] was not assigned.  A target that
    is not a sequence cannot be zipped, one that is not a number cannot be
    interpolated. *)
Definition interpolate (start_value target : Value) (p : float)
  : result (option Value) :=
  match start_value with
  | VSeq ((Some (Int _) :: _) as items) =>                  (* Sequence[int] *)
      match target with
      | VSeq targets =>
          vs <-! all_ok (map (fun ij => x <-! lerp_item (fst ij) (snd ij) p;
                                        Ok (Some (Int (Num.py_round x))))
                             (zip items targets));
          Ok (Some (VSeq vs))
      | _ => Raise TypeError
      end
  | VNum (Int i) =>
      match target with
      | VNum t => Ok (Some (VNum (Int (Num.py_round (lerp (Int i) t p)))))
      | _ => Raise TypeError
      end
  | VSeq (((Some (Float _) | None) :: _) as items) =>       (* Sequence[float | None] *)
      match target with
      | VSeq targets =>
          vs <-! all_ok (map (fun ij =>
                                match fst ij with
                                | None => Ok None
                                | Some _ => x <-! lerp_item (fst ij) (snd ij) p;
                                            Ok (Some (Float x))
                                end)
                             (zip items targets));
          Ok (Some (VSeq vs))
      | _ => Raise TypeError
      end
  | VNum (Float x) =>
      match target with
      | VNum t => Ok (Some (VNum (Float (lerp (Float x) t p))))
      | _ => Raise TypeError
      end
  | _ => Ok None
  end.

(** What a run of [tween] does, as seen from outside. *)
Variant Event : Set :=
| OnStart
| SetAttr (prop : string) (value : Value)
| OnProgress
| Sleep                       (* await asyncio.sleep(0) *)
| OnComplete.

(** The keyword arguments.  A callback is [true] when a callable was
    passed, [false] for [None]; [easing] is the function that
    [getattr(easings, easing)] finds. *)
Record Args : Type := mkArgs {
  duration : float;
  easing : float -> float;
  on_start : bool;
  on_progress : bool;
  on_complete : bool;
  properties : list (string * Value)
}.

Section Run.

(** The object whose properties are tweened, through [getattr] and
    [setattr] alone. *)
Context {Obj : Type}.
Variable getattr : Obj -> string -> Value.
Variable setattr : Obj -> string -> Value -> Obj.

(** The locals that change while the loop runs: the object, the
    variable [value] (unbound at first, kept from one property and one
    tick to the next), and the events so far. *)
Record Frame : Type := mkFrame {
  self : Obj;
  value : option Value;
  trace : list Event
}.

Variant Outcome : Type :=
| Completed (obj : Obj) (events : list Event)
| Suspended (obj : Obj) (events : list Event)   (* no clock reading left *)
| Raised (exc : Exception).

(** The body of [for start_value, (prop, target) in zip(...)]. *)
Definition update_property (p : float) (fr : Frame)
    (item : Value * (string * Value)) : result Frame :=
  let '(start_value, (prop, target)) := item in
  matched <-! interpolate start_value target p;
  match (match matched with Some v => Some v | None => value fr end) with
  | None => Raise UnboundLocalError
  | Some v => Ok (mkFrame (setattr (self fr) prop v) (Some v)
                          (trace fr ++ [SetAttr prop v]))
  end.

Fixpoint update_properties (p : float) (fr : Frame)
    (items : list (Value * (string * Value))) : result Frame :=
  match items with
  | [] => Ok fr
  | item :: items' =>
      fr' <-! update_property p fr item;
      update_properties p fr' items'
  end.

(** The last loop of [tween]: every property is assigned its target. *)
Definition set_targets (obj : Obj) (props : list (string * Value)) : Obj :=
  fold_left (fun o pt => setattr o (fst pt) (snd pt)) props obj.

Definition target_events (props : list (string * Value)) : list Event :=
  map (fun pt => SetAttr (fst pt) (snd pt)) props.

(** The [while] loop.  [clock] holds the readings of [monotonic()] still
    to come, one per test of the loop condition. *)
Fixpoint tween_loop (args : Args) (end_time : float) (start_values : list Value)
    (clock : list float) (fr : Frame) {struct clock} : Outcome :=
  match clock with
  | [] => Suspended (self fr) (trace fr)
  | current_time :: clock' =>
      if Num.ltb current_time end_time then
        if Qc_eq_dec (duration args) Num.zero then Raised ZeroDivisionError
        else
          let p := easing args (1 - (end_time - current_time) / duration args)%Qc in
          match update_properties p fr (zip start_values (properties args)) with
          | Raise e => Raised e
          | Ok fr' =>
              let progress := if on_progress args then [OnProgress] else [] in
              tween_loop args end_time start_values clock'
                         (mkFrame (self fr') (value fr')
                                  (trace fr' ++ progress ++ [Sleep]))
          end
      else
        Completed (set_targets (self fr) (properties args))
                  (trace fr ++ target_events (properties args)
                   ++ (if on_complete args then [OnComplete] else []))
  end.

(** [Widget.tween]. *)
Definition tween (args : Args) (clock : list float) (obj : Obj) : Outcome :=
  match clock with
  | [] => Suspended obj []
  | now :: clock' =>
      let end_time := (now + duration args)%Qc in
      let start_values := map (fun pt => getattr obj (fst pt)) (properties args) in
      let started := if on_start args then [OnStart] else [] in
      tween_loop args end_time start_values clock' (mkFrame obj None started)
  end.

End Run.

Arguments Completed {Obj} obj events.
Arguments Suspended {Obj} obj events.
Arguments Raised {Obj} exc.

(** The shapes the specification lists for a tracked property and its
    target: an int or a float with a number as target, or a tuple of ints,
    or of floats and [None]s, with a target of the same length holding a
    number wherever the start value does. *)
Definition is_int (i : option Number) : bool :=
  match i with Some (Int _) => true | _ => false end.
Definition is_float_or_none (i : option Number) : bool :=
  match i with Some (Int _) => false | _ => true end.
Definition target_fits (ij : option Number * option Number) : bool :=
  match ij with
  | (Some _, None) => false
  | _ => true
  end.

Definition tweenable (start_value target : Value) : bool :=
  match start_value, target with
  | VNum _, VNum _ => true
  | VSeq (i :: items), VSeq targets =>
      (forallb is_int (i :: items) || forallb is_float_or_none (i :: items))
      && (length (i :: items) =? length targets)%nat
      && forallb target_fits (zip (i :: items) targets)
  | _, _ => false
  end.

(** The widget properties [pos] and [size] as tweened attributes. *)
Definition widget_getattr (w : Widget) (attr : string) : Value :=
  if String.eqb attr "pos" then VSeq [Some (Int (top w)); Some (Int (left w))]
  else if String.eqb attr "size" then VSeq [Some (Int (height w)); Some (Int (width w))]
  else VOther.

Definition widget_setattr (w : Widget) (attr : string) (v : Value) : Widget :=
  match v with
  | VSeq [Some (Int a); Some (Int b)] =>
      if String.eqb attr "pos" then set_pos w (a, b)
      else if String.eqb attr "size" then set_size w (a, b)
      else w
  | _ => w
  end.

End Tween.

(* ===================================================================== *)
(** * Graphics: alpha and the compositor *)
(* ===================================================================== *)

Module Graphics.

Definition RGB : Set := (Z * Z * Z)%type.          (* uint8 each *)
Definition RGBA : Set := (RGB * Z)%type.

(** The code point of the upper half block. *)
Definition HALF_BLOCK : Z := 9600.

(** One cell of the screen: [canvas["char"]] with the first and the last
    three bytes of [colors]. *)
Record Cell : Set := mkCell {
  char : Z;
  foreground : RGB;
  background : RGB
}.

(** [canvas] and [colors] together, indexed by (row, column). *)
Definition Screen : Type := Point -> Cell.

(** A rectangle of the region, in screen coordinates.
    Modelled from the spec: [Region] and its rectangles are imported from
    a module that is not among the sources; a region is "a normalized set
    of non-overlapping axis-aligned rectangles".  [rect.to_slices()] is
    taken to give the rectangle's rows and columns on the screen, and
    [rect.to_slices(abs_pos)] the same rows and columns counted from the
    gadget's own corner. *)
Record Rect : Set := mkRect { ry : Z; rx : Z; rh : Z; rw : Z }.

Definition in_rect (r : Rect) (p : Point) : bool :=
  (ry r <=? fst p) && (fst p <? ry r + rh r)
  && (rx r <=? snd p) && (snd p <? rx r + rw r).

(** A graphics gadget, as far as [render] reads it.  [ancestor_alphas]
    holds [ancestor.alpha] of every ancestor that is a [Graphics]. *)
Record Gadget : Type := mkGadget {
  is_transparent : bool;
  alpha : float;
  texture : Point -> RGBA;        (* texture[row, column] *)
  absolute_pos : Point;
  region : list Rect;
  ancestor_alphas : list float
}.

Definition with_alpha (self : Gadget) (a : float) : Gadget :=
  mkGadget (is_transparent self) a (texture self) (absolute_pos self)
           (region self) (ancestor_alphas self).

(** The [alpha] setter: [self._alpha = clamp(float(alpha), 0.0, 1.0)]. *)
Definition set_alpha (self : Gadget) (alpha : float) : Gadget :=
  with_alpha self (clamp alpha (Some Num.zero) (Some Num.one)).

(** [math.prod] of floats. *)
Definition prod (xs : list float) : float :=
  fold_left Qcmult xs Num.one.

(** [prod(...) * self.alpha / 255]. *)
Definition norm_alpha (self : Gadget) : float :=
  (prod (ancestor_alphas self) * alpha self / Num.of_int 255)%Qc.

(** The cast of [casting="unsafe"] from a float to [uint8]: the fraction
    is dropped and the integer is reduced modulo 256. *)
Definition to_uint8 (x : float) : Z := Num.py_int x mod 256.

(** One channel of one cell through the blend:
    [buffer = texel - existing] as floats, [buffer *= texel_alpha],
    [buffer *= norm_alpha], [existing = uint8(buffer + existing)]. *)
Definition blend_channel (texel existing texel_alpha : Z) (na : float) : Z :=
  to_uint8 ((Num.of_int texel - Num.of_int existing) * Num.of_int texel_alpha * na
            + Num.of_int existing)%Qc.

Definition blend (texel : RGBA) (existing : RGB) (na : float) : RGB :=
  let '((r, g, b), a) := texel in
  let '(er, eg, eb) := existing in
  (blend_channel r er a na, blend_channel g eg a na, blend_channel b eb a na).

(** The texels behind the cell at screen position [p]: the even and the
    odd texture row of its source row. *)
Definition even_texel (self : Gadget) (p : Point) : RGBA :=
  texture self (2 * (fst p - fst (absolute_pos self)), snd p - snd (absolute_pos self)).
Definition odd_texel (self : Gadget) (p : Point) : RGBA :=
  texture self (2 * (fst p - fst (absolute_pos self)) + 1, snd p - snd (absolute_pos self)).

(** The transparent branch of [render] on one cell of a rectangle. *)
Definition render_cell_transparent (self : Gadget) (p : Point) (c : Cell) : Cell :=
  (* mask: the cells whose glyph is not the half block;
     foreground[dst][mask] = background[dst][mask] *)
  let fg := if char c =? HALF_BLOCK then foreground c else background c in
  let bg := background c in
  mkCell HALF_BLOCK
         (blend (even_texel self p) fg (norm_alpha self))
         (blend (odd_texel self p) bg (norm_alpha self)).

(** The other branch: the texels overwrite the colors. *)
Definition render_cell_opaque (self : Gadget) (p : Point) (c : Cell) : Cell :=
  mkCell HALF_BLOCK (fst (even_texel self p)) (fst (odd_texel self p)).

Definition render_rect (self : Gadget) (screen : Screen) (rect : Rect) : Screen :=
  fun p =>
    if in_rect rect p then
      if is_transparent self
      then render_cell_transparent self p (screen p)
      else render_cell_opaque self p (screen p)
    else screen p.

(** [Graphics.render]: [for rect in self.region.rects(): ...]. *)
Definition render (self : Gadget) (screen : Screen) : Screen :=
  fold_left (render_rect self) (region self) screen.

(** The cells the gadget covers. *)
Definition covered (self : Gadget) (p : Point) : bool :=
  existsb (fun r => in_rect r p) (region self).

End Graphics.

(* ===================================================================== *)
(** * Window *)
(* ===================================================================== *)

Module Window.

(** A window, as far as [resize] writes it: its own size and its three
    parts. *)
Record Window : Set := mkWindow {
  _size : Size;
  _border : Widget;
  _titlebar : Widget;
  _view : Widget
}.

Section Resize.

(** The [resize] of the parts is [WidgetBase.resize], defined in a module
    that is not among the sources. *)
Variable resize : Widget -> Size -> Widget.

(** [Window.resize]: the size is stored as given, then border, title bar
    and view are resized. *)
Definition resize_window (self : Window) (size : Size) : Window :=
  let '(h, w) := size in
  mkWindow (h, w)
           (resize (_border self) size)
           (resize (_titlebar self) (1, w - 4))
           (resize (_view self) (h - 3, w - 4)).

End Resize.

End Window.

(* ===================================================================== *)
(** * Vocabulary of the statements, and the scenarios they are tried on *)
(* ===================================================================== *)

Arguments clamp : simpl never.

(** The two halves of [update_geometry], each on its own. *)
Definition resolve_size (parent : Size) (self : Widget) : Widget :=
  let '(h, w) := parent in
  match size_hint self with
  | (None, None) => self
  | (h_hint, w_hint) =>
      let height' :=
        match h_hint with
        | None => height self
        | Some h_hint =>
            clamp (Num.py_round (h_hint * Num.of_int h)%Qc)
                  (min_height self) (max_height self)
        end in
      let width' :=
        match w_hint with
        | None => width self
        | Some w_hint =>
            clamp (Num.py_round (w_hint * Num.of_int w)%Qc)
                  (min_width self) (max_width self)
        end in
      set_size self (height', width')
  end.

Definition resolve_pos (parent : Size) (self : Widget) : Widget :=
  let '(h, w) := parent in
  match pos_hint self with
  | (None, None) => self
  | (y_hint, x_hint) =>
      let '(offset_top, offset_left) := anchor_offset self in
      let self :=
        match y_hint with
        | Some y_hint =>
            set_top self (Num.py_int (Num.of_int h * y_hint)%Qc - offset_top)
        | None => self
        end in
      match x_hint with
      | Some x_hint =>
          set_left self (Num.py_int (Num.of_int w * x_hint)%Qc - offset_left)
      | None => self
      end
  end.

(** The dimension a size hint asks for, before the setter's clamp. *)
Definition hinted (hint : option float) (parent_dim current : Z)
    (lo hi : option Z) : Z :=
  match hint with
  | Some r => clamp (Num.py_round (r * Num.of_int parent_dim)%Qc) lo hi
  | None => current
  end.

Definition has_size_hint (self : Widget) : bool :=
  match size_hint self with
  | (None, None) => false
  | _ => true
  end.

Definition resolved_size (parent : Size) (self : Widget) : Size :=
  if has_size_hint self then
    (Z.max 1 (hinted (height_hint self) (fst parent) (height self)
                     (min_height self) (max_height self)),
     Z.max 1 (hinted (width_hint self) (snd parent) (width self)
                     (min_width self) (max_width self)))
  else size self.

(** The position a widget is given by its position hints. *)
Definition resolved_pos (parent : Size) (self : Widget) : Point :=
  (match y_hint self with
   | Some y => Num.py_int (Num.of_int (fst parent) * y)%Qc - fst (anchor_offset self)
   | None => top self
   end,
   match x_hint self with
   | Some x => Num.py_int (Num.of_int (snd parent) * x)%Qc - snd (anchor_offset self)
   | None => left self
   end).

(** What geometry resolution leaves alone. *)
Definition same_settings (a b : Widget) : Prop :=
  ident a = ident b /\ size_hint a = size_hint b /\
  min_height a = min_height b /\ max_height a = max_height b /\
  min_width a = min_width b /\ max_width a = max_width b /\
  pos_hint a = pos_hint b /\ anchor a = anchor b /\
  is_transparent a = is_transparent b /\ is_visible a = is_visible b /\
  is_enabled a = is_enabled b /\ handlers a = handlers b.

(** The operations that change a node's geometry after it is built: the
    [size], [size_hint] and [pos_hint] setters and [update_geometry], each
    with the size of the parent the node has at that time, if any. *)
Variant Operation : Set :=
| AssignSize (new_size : Size)
| AssignSizeHint (parent : option Size) (hint : SizeHint)
| AssignPosHint (parent : option Size) (hint : PosHint)
| Resolve (parent : option Size).

Definition apply_operation (self : Widget) (op : Operation) : Widget :=
  match op with
  | AssignSize new_size => set_size self new_size
  | AssignSizeHint parent hint => set_size_hint parent self hint
  | AssignPosHint parent hint => set_pos_hint parent self hint
  | Resolve parent => update_geometry parent self
  end.

(** A node with [size=(10, 10)] and [size_hint=(0.5, None)]. *)
Definition half_height_node : Widget :=
  Widget_init 1 (10, 10) (0, 0) (Some Num.half, None) None None None None
              (None, None) TOP_LEFT false true true.

(** A node with [size=(10, 10)], anchor [center] and [pos_hint=(0.5, 0.5)]. *)
Definition centered_node : Widget :=
  Widget_init 2 (10, 10) (0, 0) (None, None) None None None None
              (Some Num.half, Some Num.half) CENTER false true true.

(** [Widget(size=(0, 0))]. *)
Definition empty_node : Widget :=
  Widget_init 3 (0, 0) (0, 0) (None, None) None None None None
              (None, None) TOP_LEFT false true true.

(** [Widget(size_hint=(0.0, None))]. *)
Definition zero_hint_node : Widget :=
  Widget_init 4 (10, 10) (0, 0) (Some Num.zero, None) None None None None
              (None, None) TOP_LEFT false true true.

(** [Widget(pos_hint=(-0.5, None))]. *)
Definition negative_hint_node : Widget :=
  Widget_init 5 (10, 10) (0, 0) (None, None) None None None None
              (Some (- Num.half)%Qc, None) TOP_LEFT false true true.

(** What the specification's policy gives for a handler [p]: the handlers
    run are those of the widgets of [topmost_first] up to the first that
    accepts, and the event is handled when one accepts. *)
Definition first_handler_wins (p : Widget -> bool) (self : Widget) : Dispatched :=
  (map ident (up_to_first p (topmost_first self)), existsb p (topmost_first self)).

(** The scenario of the specification: a parent with children [A, B], B
    added last. *)
Definition leaf (id : nat) (accepts : bool) : Widget :=
  mkWidget id (10, 10) (0, 0) (None, None) None None None None (None, None)
           TOP_LEFT false true true
           (mkHandlers (fun _ => accepts) (fun _ => accepts) (fun _ => accepts)
                       (fun _ => accepts) (fun _ => accepts))
           [].

Definition parent_of (id : nat) (accepts : bool) (cs : list Widget) : Widget :=
  with_children (leaf id accepts) cs.

(** A widget of 2 rows and 3 columns at (0, 0) with one child that fills it. *)
Definition two_rows : Widget :=
  add_widget
    (Widget_init 1 (2, 3) (0, 0) (None, None) None None None None
                 (None, None) TOP_LEFT false true true)
    (Widget_init 2 (2, 3) (0, 0) (None, None) None None None None
                 (None, None) TOP_LEFT false true true).

(** A destination that starts on the row where [two_rows] ends. *)
Definition rows_below : Slices := (mkSlice 2 5, mkSlice 0 3).

(** [ring] over the rationals behind [float]. *)
Ltac float_ring := ring.

Definition is_uint8 (z : Z) : Prop := 0 <= z < 256.

Definition uint8_rgb (c : Graphics.RGB) : Prop :=
  is_uint8 (fst (fst c)) /\ is_uint8 (snd (fst c)) /\ is_uint8 (snd c).

(** The colors of a cell are bytes, as the [uint8] array stores them. *)
Definition uint8_cell (c : Graphics.Cell) : Prop :=
  uint8_rgb (Graphics.foreground c) /\ uint8_rgb (Graphics.background c).

(** The color a transparent gadget blends its even texels onto: the
    foreground of a cell that already shows the half block, the background
    of any other cell. *)
Definition flat_base (c : Graphics.Cell) : Graphics.RGB :=
  if Graphics.char c =? Graphics.HALF_BLOCK
  then Graphics.foreground c
  else Graphics.background c.

(** A cell after a blend that adds nothing. *)
Definition flattened (c : Graphics.Cell) : Graphics.Cell :=
  Graphics.mkCell Graphics.HALF_BLOCK (flat_base c) (Graphics.background c).

(** A transparent gadget with alpha 0 over one cell that shows the letter A,
    white on black. *)
Definition invisible_gadget : Graphics.Gadget :=
  Graphics.mkGadget true Num.zero (fun _ => ((255, 0, 0), 255)) (0, 0)
                    [Graphics.mkRect 0 0 1 1] [].

Definition letter_A : Graphics.Screen :=
  fun _ => Graphics.mkCell 65 (255, 255, 255) (0, 0, 0).

(** A covered cell that already shows the half block, under the gadget of
    [invisible_gadget]: both colors stay. *)
Definition half_block_screen : Graphics.Screen :=
  fun _ => Graphics.mkCell Graphics.HALF_BLOCK (255, 255, 255) (0, 0, 0).

Definition events_of {Obj : Type} (o : @Tween.Outcome Obj) : list Tween.Event :=
  match o with
  | Tween.Completed _ events => events
  | Tween.Suspended _ events => events
  | Tween.Raised _ => []
  end.

Definition is_complete (e : Tween.Event) : bool :=
  match e with
  | Tween.OnComplete => true
  | _ => false
  end.

(** How many times the completion callback fired. *)
Definition completions (events : list Tween.Event) : nat :=
  length (filter is_complete events).

(** The writes of a tick that gives every property its start value. *)
Definition start_events {Obj : Type} (getattr : Obj -> string -> Tween.Value)
    (obj : Obj) (props : list (string * Tween.Value)) : list Tween.Event :=
  map (fun pt => Tween.SetAttr (fst pt) (getattr obj (fst pt))) props.

(** A start value, zipped with its property and target, has one of the
    shapes [tweenable] lists. *)
Definition fits (item : Tween.Value * (string * Tween.Value)) : Prop :=
  Tween.tweenable (fst item) (snd (snd item)) = true.

(** The events of the completion callback: one when a callable was given. *)
Definition complete_events (args : Tween.Args) : list Tween.Event :=
  if Tween.on_complete args then [Tween.OnComplete] else [].

(** [tween(duration=1.0, easing="linear", on_start=..., on_progress=...,
    on_complete=..., pos=(5, 10))]. *)
Definition move_args : Tween.Args :=
  Tween.mkArgs Num.one Tween.linear true true true
               [("pos", Tween.VSeq [Some (Tween.Int 5); Some (Tween.Int 10)])].

(** The handler of one kind of event, asked about one event. *)
Definition accepts {Event : Type} (on_event : Widget -> Event -> bool)
    (event : Event) : Widget -> bool :=
  fun widget => on_event widget event.

(* ===================================================================== *)
(** * More of the widget: setters, tree edits, traversal *)
(* ===================================================================== *)

(** The [bottom] and [right] setters: [self.top = value - self.height] and
    [self.left = value - self.width]. *)
Definition set_bottom (self : Widget) (value : Z) : Widget :=
  set_top self (value - height self).
Definition set_right (self : Widget) (value : Z) : Widget :=
  set_left self (value - width self).

(** The assignment [self.is_visible = visible]. *)
Definition with_visible (self : Widget) (visible : bool) : Widget :=
  mkWidget (ident self) (size self) (pos self) (size_hint self)
           (min_height self) (max_height self) (min_width self) (max_width self)
           (pos_hint self) (anchor self)
           (is_transparent self) visible (is_enabled self)
           (handlers self) (children self).

(** [Widget.walk]: every descendant, each child followed by what is below
    it, the children in list order. *)
Fixpoint walk (self : Widget) : list Widget :=
  flat_map (fun child => child :: walk child) (children self).

(** [list.remove] on a list of children, widgets compared by identity: the
    first child that is the widget [id] is taken out and returned with the
    children left.  [None] stands for the [ValueError] that [list.remove]
    raises when no child is that widget. *)
Fixpoint pop_child (id : nat) (cs : list Widget) : option (Widget * list Widget) :=
  match cs with
  | [] => None
  | c :: cs' =>
      if (ident c =? id)%nat then Some (c, cs')
      else match pop_child id cs' with
           | Some (w, rest) => Some (w, c :: rest)
           | None => None
           end
  end.

(** [Widget.remove_widget]. *)
Definition remove_widget (self : Widget) (widget : nat) : option Widget :=
  match pop_child widget (children self) with
  | Some (_, rest) => Some (with_children self rest)
  | None => None
  end.

(** [Widget.pull_to_front], called on the child [widget] of [parent]:
    [parent.remove_widget(self); parent.add_widget(self)]. *)
Definition pull_to_front (parent : Widget) (widget : nat) : option Widget :=
  match pop_child widget (children parent) with
  | Some (w, rest) => Some (add_widget (with_children parent rest) w)
  | None => None
  end.

(** The action [self] has registered for [attr] of [source], if any. *)
Definition subscription (reg : gmap string (gmap nat (gmap nat Subscriptions.Action)))
    (self source : nat) (attr : string) : option Subscriptions.Action :=
  match reg !! attr with
  | Some instances =>
      match instances !! source with
      | Some subscribers => subscribers !! self
      | None => None
      end
  | None => None
  end.

(* ===================================================================== *)
(** * The application's input and resize loops *)
(* ===================================================================== *)

Module App.

(** What [env_in.read_keys()] yields. *)
Variant Input : Set :=
| Pressed (e : KeyPressEvent)
| Moused (e : MouseEvent)
| Pasted (e : PasteEvent).

(** A call [read_from_input] makes on one of the root's three dispatchers.
    What the dispatcher returns is dropped by the caller. *)
Variant Call : Set :=
| dispatch_press_call (e : KeyPressEvent)
| dispatch_click_call (e : MouseEvent)
| dispatch_paste_call (e : PasteEvent).

(** [case self.exit_key]: the key equals the exit key ([None] equals no
    key). *)
Definition is_exit_key (exit_key : option KeyPressEvent) (key : Input) : bool :=
  match exit_key, key with
  | Some (KeyPress c), Pressed (KeyPress c') => (c =? c')%nat
  | _, _ => false
  end.

(** The three cases after [case self.exit_key]. *)
Definition route (key : Input) : Call :=
  match key with
  | Moused e => dispatch_click_call e
  | Pasted e => dispatch_paste_call e
  | Pressed e => dispatch_press_call e
  end.

(** [read_from_input] over one batch of keys: the calls made on the root,
    in order, and whether [self.exit()] was called. *)
Fixpoint read_from_input (exit_key : option KeyPressEvent) (keys : list Input)
  : list Call * bool :=
  match keys with
  | [] => ([], false)
  | key :: keys' =>
      if is_exit_key exit_key key then ([], true)
      else
        let '(rest, exited) := read_from_input exit_key keys' in
        (route key :: rest, exited)
  end.

Definition size_eqb (a b : Size) : bool :=
  (fst a =? fst b) && (snd a =? snd b).

(** [poll_size] over the sizes [env_out.get_size()] reports after each
    sleep: the sizes [resize] is called with, in order.  [size] is the size
    last seen. *)
Fixpoint poll_size (size : Size) (readings : list Size) : list Size :=
  match readings with
  | [] => []
  | new_size :: readings' =>
      if size_eqb size new_size then poll_size size readings'
      else new_size :: poll_size new_size readings'
  end.

End App.

(* ===================================================================== *)
(** * Text animation: the frame counter *)
(* ===================================================================== *)

Module TextAnimation.

(** A text animation, as far as playing reads and writes it: the number of
    frames ([len(self.frames)]), the two flags and the current index. *)
Record Animation : Set := mkAnimation {
  n_frames : nat;
  loop : bool;
  reverse : bool;
  _i : Z
}.

Definition len (self : Animation) : Z := Z.of_nat (n_frames self).

Definition with_i (self : Animation) (i : Z) : Animation :=
  mkAnimation (n_frames self) (loop self) (reverse self) i.

(** The index [__init__] and [stop] set:
    [len(self.frames) - 1 if self.reverse else 0]. *)
Definition first_index (self : Animation) : Z :=
  if reverse self then len self - 1 else 0.

Definition stop (self : Animation) : Animation := with_i self (first_index self).

(** The index adjustment of [play], before the task is created. *)
Definition play (self : Animation) : Animation :=
  if (_i self =? 0) && reverse self then with_i self (len self - 1)
  else if (_i self =? len self - 1) && negb (reverse self) then with_i self 0
  else self.

(** The body of the loop of [_play_animation] after the sleep: the index
    moves by one, wraps around at the end, and the coroutine returns at the
    wrap when the animation does not loop. *)
Definition advance (self : Animation) : Animation * bool :=
  if reverse self then
    let i := _i self - 1 in
    if i <? 0 then (with_i self (len self - 1), negb (loop self))
    else (with_i self i, false)
  else
    let i := _i self + 1 in
    if i =? len self then (with_i self 0, negb (loop self))
    else (with_i self i, false).

(** [_play_animation], for at most [sleeps] sleeps: the indices of the
    frames shown (the index during each sleep), the animation afterwards,
    and whether the coroutine has returned. *)
Fixpoint play_animation (sleeps : nat) (self : Animation)
  : list Z * Animation * bool :=
  if (n_frames self =? 0)%nat then ([], self, true)
  else
    match sleeps with
    | O => ([], self, false)
    | S sleeps' =>
        let '(self', returned) := advance self in
        if returned then ([_i self], self', true)
        else
          let '(shown, last, r) := play_animation sleeps' self' in
          (_i self :: shown, last, r)
    end.

(** The index names a frame. *)
Definition in_range (self : Animation) : Prop := 0 <= _i self < len self.

End TextAnimation.

(** What geometry resolution has no business changing: who the widget is,
    its hints, bounds, anchor and flags. *)
Definition settings_of (self : Widget)
  : nat * SizeHint * (option Z * option Z * option Z * option Z)
    * PosHint * Anchor * (bool * bool * bool) :=
  (ident self, size_hint self,
   (min_height self, max_height self, min_width self, max_width self),
   pos_hint self, anchor self,
   (is_transparent self, is_visible self, is_enabled self)).

(** A [render] call whose destination and source parts have the same
    number of rows and the same number of columns. *)
Definition same_shape (call : RenderCall) : Prop :=
  stop (fst (dest_slice call)) - start (fst (dest_slice call))
  = stop (fst (source call)) - start (fst (source call))
  /\ stop (snd (dest_slice call)) - start (snd (dest_slice call))
     = stop (snd (source call)) - start (snd (source call)).

(** The index [k] frames on from the current one, in the direction the
    animation plays, wrapping around. *)
Definition frame_after (self : TextAnimation.Animation) (k : nat) : Z :=
  if TextAnimation.reverse self
  then (TextAnimation._i self - Z.of_nat k) mod TextAnimation.len self
  else (TextAnimation._i self + Z.of_nat k) mod TextAnimation.len self.

(** The frames from the current one to the end, in the direction the
    animation plays: how many there are, and the index of the [k]-th. *)
Definition frames_left (self : TextAnimation.Animation) : nat :=
  if TextAnimation.reverse self
  then Z.to_nat (TextAnimation._i self + 1)
  else Z.to_nat (TextAnimation.len self - TextAnimation._i self).

Definition frame_on (self : TextAnimation.Animation) (k : nat) : Z :=
  if TextAnimation.reverse self
  then TextAnimation._i self - Z.of_nat k
  else TextAnimation._i self + Z.of_nat k.

(* ===================================================================== *)
(** * Positions along the chain of parents *)
(* ===================================================================== *)

(** [absolute_pos], [to_local] and [collides_point] ask the parent, which
    asks its own parent, up to the root.  The class of the root is declared
    in a module that is not among the sources read here, so what the root
    answers is a parameter: [root_pos] for its [absolute_pos],
    [root_to_local] and [root_collides_point] for its two methods.
    [ancestors] are the widgets between [self] and the root, the parent
    first. *)
Fixpoint absolute_pos (root_pos : Point) (ancestors : list Widget) (self : Widget)
  : Point :=
  let '(y, x) :=
    match ancestors with
    | [] => root_pos
    | parent :: above => absolute_pos root_pos above parent
    end in
  (top self + y, left self + x).

Fixpoint to_local (root_to_local : Point -> Point) (ancestors : list Widget)
    (self : Widget) (point : Point) : Point :=
  let '(y, x) :=
    match ancestors with
    | [] => root_to_local point
    | parent :: above => to_local root_to_local above parent point
    end in
  (y - top self, x - left self).

Fixpoint collides_point (root_collides_point : Point -> bool)
    (root_to_local : Point -> Point) (ancestors : list Widget)
    (self : Widget) (point : Point) : bool :=
  if negb match ancestors with
          | [] => root_collides_point point
          | parent :: above =>
              collides_point root_collides_point root_to_local above parent point
          end
  then false
  else
    let '(y, x) := to_local root_to_local ancestors self point in
    (0 <=? y) && (y <? height self) && ((0 <=? x) && (x <? width self)).

(** [collides_widget].  The right edge of [self] is computed from
    [self.left], as in the source. *)
Definition collides_widget (root_pos : Point)
    (ancestors : list Widget) (self : Widget)
    (widget_ancestors : list Widget) (widget : Widget) : bool :=
  let '(self_top, self_left) := absolute_pos root_pos ancestors self in
  let self_bottom := self_top + height self in
  let self_right := left self + width self in
  let '(other_top, other_left) := absolute_pos root_pos widget_ancestors widget in
  let other_bottom := other_top + height widget in
  let other_right := other_left + width widget in
  negb ((self_top >=? other_bottom)
        || (other_top >=? self_bottom)
        || (self_left >=? other_right)
        || (other_left >=? self_right)).

(** A widget with each of its ancestors, every one paired with the chain
    above it. *)
Fixpoint lineage (ancestors : list Widget) (self : Widget)
  : list (list Widget * Widget) :=
  (ancestors, self) ::
  match ancestors with
  | [] => []
  | parent :: above => lineage above parent
  end.

(** The point, in the coordinates of the widget, is on the widget. *)
Definition on_widget (self : Widget) (local : Point) : Prop :=
  0 <= fst local < height self /\ 0 <= snd local < width self.

(** The cells of the screen a widget with upper-left corner [corner]
    takes up. *)
Definition covers (corner : Point) (self : Widget) (cell : Point) : Prop :=
  fst corner <= fst cell < fst corner + height self
  /\ snd corner <= snd cell < snd corner + width self.

(** Every size in the list differs from the one before it, [previous]
    being the one before the first. *)
Fixpoint each_differs (previous : Size) (sizes : list Size) : Prop :=
  match sizes with
  | [] => True
  | s :: sizes' => previous <> s /\ each_differs s sizes'
  end.

(* ===================================================================== *)
(** * More scenarios *)
(* ===================================================================== *)

(** A child with [size_hint=(1.0, 1.0)] in a parent of ten rows and ten
    columns. *)
Definition full_size_child : Widget :=
  Widget_init 2 (3, 3) (0, 0) (Some Num.one, Some Num.one) None None None None
              (None, None) TOP_LEFT false true true.

Definition framed : Widget := with_children (default_widget 1) [full_size_child].

(** [Widget(is_enabled=False)]. *)
Definition disabled_node : Widget :=
  Widget_init 6 (10, 10) (0, 0) (None, None) None None None None
              (None, None) TOP_LEFT false true false.

(** The registry after widget 1 has subscribed, with action 7, to the size
    of widget 2. *)
Definition one_subscriber : gmap string (gmap nat (gmap nat Subscriptions.Action)) :=
  <["size" := <[2%nat := <[1%nat := 7%nat]> ∅]> ∅]> Subscriptions.fresh.

(** [tween(duration=0, pos=(5, 10))] with all three callbacks. *)
Definition instant_args : Tween.Args :=
  Tween.mkArgs Num.zero Tween.linear true true true
               [("pos", Tween.VSeq [Some (Tween.Int 5); Some (Tween.Int 10)])].

(** [tween(duration=1.0, alpha=0.5)] on a widget, which has no attribute
    of a shape the tween interpolates under that name. *)
Definition alpha_args : Tween.Args :=
  Tween.mkArgs Num.one Tween.linear true true true
               [("alpha", Tween.VNum (Tween.Float Num.half))].

(** An opaque gadget over one cell, its texture red. *)
Definition opaque_gadget : Graphics.Gadget :=
  Graphics.mkGadget false Num.one (fun _ => ((255, 0, 0), 255)) (0, 0)
                    [Graphics.mkRect 0 0 1 1] [].

(** A transparent gadget with alpha 1 over one cell, every texel of its
    texture with alpha 0. *)
Definition clear_gadget : Graphics.Gadget :=
  Graphics.mkGadget true Num.one (fun _ => ((255, 0, 0), 0)) (0, 0)
                    [Graphics.mkRect 0 0 1 1] [].

(** Three frames shown over and over, and three frames played once,
    backwards, from the last. *)
Definition spinner : TextAnimation.Animation :=
  TextAnimation.mkAnimation 3 true false 0.

Definition countdown : TextAnimation.Animation :=
  TextAnimation.mkAnimation 3 false true 2.
(* ===================================================================== *)
(** * Geometry: proofs *)
(* ===================================================================== *)

Lemma clamp_at_least_1 (z : Z) : clamp z (Some 1) None = Z.max 1 z.
Proof.
  unfold clamp, py_lt, int_lt.
  destruct (Z.ltb_spec z 1); lia.
Qed.

(** Two widgets with the same attributes are the same widget. *)
Lemma Widget_eq (a b : Widget) :
  ident a = ident b -> size a = size b -> pos a = pos b ->
  size_hint a = size_hint b ->
  min_height a = min_height b -> max_height a = max_height b ->
  min_width a = min_width b -> max_width a = max_width b ->
  pos_hint a = pos_hint b -> anchor a = anchor b ->
  is_transparent a = is_transparent b -> is_visible a = is_visible b ->
  is_enabled a = is_enabled b -> handlers a = handlers b ->
  children a = children b -> a = b.
Proof.
  destruct a, b; simpl; intros; subst; reflexivity.
Qed.

(** Induction over a widget tree: the children may be assumed. *)
Lemma Widget_tree_ind (P : Widget -> Prop) :
  (forall self, Forall P (children self) -> P self) -> forall self, P self.
Proof.
  intros step.
  fix IH 1.
  intros self. apply step.
  destruct self as [? ? ? ? ? ? ? ? ? ? ? ? ? ? cs]; simpl.
  induction cs as [|c cs IHcs]; constructor; [apply IH | exact IHcs].
Qed.

Lemma update_geometry_unfold (parent : Size) (self : Widget) :
  update_geometry (Some parent) self = resolve_pos parent (resolve_size parent self).
Proof.
  destruct parent as [h w], self; reflexivity.
Qed.

Lemma size_resolve_size (parent : Size) (self : Widget) :
  size (resolve_size parent self) = resolved_size parent self.
Proof.
  destruct parent as [h w]. unfold resolve_size, resolved_size, has_size_hint, height_hint, width_hint.
  destruct (size_hint self) as [[hh|] [wh|]]; simpl; rewrite ?clamp_at_least_1; reflexivity.
Qed.

Lemma size_update_geometry (parent : Size) (self : Widget) :
  size (update_geometry (Some parent) self) = resolved_size parent self.
Proof.
  rewrite update_geometry_unfold, <- size_resolve_size.
  destruct parent as [h w]. unfold resolve_pos.
  destruct (pos_hint _) as [[y|] [x|]]; try reflexivity;
    destruct (anchor_offset _); reflexivity.
Qed.

Lemma resolve_pos_eq (parent : Size) (self : Widget) :
  resolve_pos parent self = with_pos self (resolved_pos parent self).
Proof.
  destruct parent as [h w].
  unfold resolve_pos, resolved_pos, y_hint, x_hint.
  destruct self as [i s [t l] sh ? ? ? ? [[y|] [x|]] a ? ? ? ? cs]; simpl;
    try destruct (anchor_offset _); reflexivity.
Qed.

Lemma resolve_size_eq (parent : Size) (self : Widget) :
  resolve_size parent self =
  if has_size_hint self
  then with_children (with_size self (resolved_size parent self))
         (map (update_geometry (Some (resolved_size parent self))) (children self))
  else self.
Proof.
  destruct parent as [h w].
  unfold resolve_size, resolved_size, has_size_hint, height_hint, width_hint.
  destruct (size_hint self) as [[hh|] [wh|]]; simpl;
    unfold set_size, size_setter; rewrite ?clamp_at_least_1; reflexivity.
Qed.

Lemma update_geometry_settings (parent : option Size) (self : Widget) :
  same_settings (update_geometry parent self) self.
Proof.
  destruct parent as [p|].
  - rewrite update_geometry_unfold, resolve_pos_eq, resolve_size_eq.
    destruct (has_size_hint self); repeat split.
  - destruct self; repeat split.
Qed.

Lemma children_update_geometry (parent : Size) (self : Widget) :
  children (update_geometry (Some parent) self) =
  if has_size_hint self
  then map (update_geometry (Some (resolved_size parent self))) (children self)
  else children self.
Proof.
  rewrite update_geometry_unfold, resolve_pos_eq, resolve_size_eq.
  destruct (has_size_hint self); reflexivity.
Qed.

Lemma anchor_offset_ext (a b : Widget) :
  size a = size b -> anchor a = anchor b -> anchor_offset a = anchor_offset b.
Proof.
  unfold anchor_offset, center, height, width. intros -> ->. reflexivity.
Qed.

Lemma pos_update_geometry (parent : Size) (self : Widget) :
  pos (update_geometry (Some parent) self) =
  (match y_hint self with
   | Some y => Num.py_int (Num.of_int (fst parent) * y)%Qc
               - fst (anchor_offset (update_geometry (Some parent) self))
   | None => top self
   end,
   match x_hint self with
   | Some x => Num.py_int (Num.of_int (snd parent) * x)%Qc
               - snd (anchor_offset (update_geometry (Some parent) self))
   | None => left self
   end).
Proof.
  assert (Hoff : anchor_offset (update_geometry (Some parent) self)
                 = anchor_offset (resolve_size parent self)).
  { apply anchor_offset_ext.
    - rewrite size_update_geometry, size_resolve_size. reflexivity.
    - rewrite update_geometry_unfold, resolve_pos_eq. reflexivity. }
  rewrite Hoff, update_geometry_unfold, resolve_pos_eq. simpl.
  unfold resolved_pos, y_hint, x_hint, top, left.
  rewrite resolve_size_eq. destruct (has_size_hint self); reflexivity.
Qed.

Lemma resolved_size_idempotent (parent : Size) (self : Widget) :
  resolved_size parent (update_geometry (Some parent) self) = resolved_size parent self.
Proof.
  destruct (update_geometry_settings (Some parent) self)
    as (_ & Hsh & Hmh & HMh & Hmw & HMw & _).
  unfold resolved_size, has_size_hint, height_hint, width_hint, height, width.
  rewrite Hsh, Hmh, HMh, Hmw, HMw, size_update_geometry.
  unfold resolved_size, has_size_hint, height_hint, width_hint, height, width.
  destruct (size_hint self) as [[hh|] [wh|]]; simpl; try reflexivity;
    f_equal; lia.
Qed.

Lemma update_geometry_idempotent (parent : option Size) (self : Widget) :
  update_geometry parent (update_geometry parent self) = update_geometry parent self.
Proof.
  revert parent. induction self as [self IH] using Widget_tree_ind. intros [p|].
  2: { destruct self; reflexivity. }
  destruct (update_geometry_settings (Some p) (update_geometry (Some p) self))
    as (? & Hsh & ? & ? & ? & ? & Hph & Han & ? & ? & ? & ?).
  destruct (update_geometry_settings (Some p) self)
    as (? & Hsh' & ? & ? & ? & ? & Hph' & Han' & ? & ? & ? & ?).
  apply Widget_eq; try assumption.
  - rewrite !size_update_geometry. apply resolved_size_idempotent.
  - rewrite (pos_update_geometry p (update_geometry (Some p) self)).
    rewrite (anchor_offset_ext (update_geometry (Some p) (update_geometry (Some p) self))
                               (update_geometry (Some p) self)).
    + unfold y_hint, x_hint, top, left. rewrite Hph'.
      rewrite (pos_update_geometry p self). unfold y_hint, x_hint, top, left.
      destruct (pos_hint self) as [[y|] [x|]]; reflexivity.
    + rewrite !size_update_geometry. apply resolved_size_idempotent.
    + assumption.
  - rewrite (children_update_geometry p (update_geometry (Some p) self)).
    rewrite resolved_size_idempotent.
    unfold has_size_hint at 1. rewrite Hsh'. fold (has_size_hint self).
    rewrite (children_update_geometry p self).
    destruct (has_size_hint self); [|reflexivity].
    rewrite map_map. apply map_ext_Forall.
    eapply Forall_impl; [exact IH|]. intros c Hc. apply Hc.
Qed.

Lemma py_ltb_zero_false (x : float) : (0 <= x)%Qc -> Num.ltb x Num.zero = false.
Proof.
  intros H. unfold Num.ltb.
  destruct (x ?= Num.zero)%Qc eqn:E; try reflexivity.
  exfalso. apply (Qcle_not_lt _ _ H). exact E.
Qed.

(** ** What the [size] setter and the resolver guarantee *)

Lemma set_size_at_least_1 (self : Widget) (s : Size) :
  1 <= height (set_size self s) /\ 1 <= width (set_size self s).
Proof.
  destruct s as [h w]. unfold set_size, size_setter, height, width; simpl.
  rewrite !clamp_at_least_1. lia.
Qed.

Lemma update_geometry_at_least_1 (parent : option Size) (self : Widget) :
  1 <= height self -> 1 <= width self ->
  1 <= height (update_geometry parent self) /\ 1 <= width (update_geometry parent self).
Proof.
  intros Hh Hw. destruct parent as [p|]; [|destruct self; auto].
  unfold height, width in *. rewrite size_update_geometry. unfold resolved_size.
  destruct (has_size_hint self); simpl; lia.
Qed.

(** From a node of height and width at least 1, no sequence of size
    assignments, hint assignments and resolutions leads below 1. *)
Lemma operations_keep_size_at_least_1 (ops : list Operation) (self : Widget) :
  1 <= height self -> 1 <= width self ->
  1 <= height (fold_left apply_operation ops self)
  /\ 1 <= width (fold_left apply_operation ops self).
Proof.
  revert self. induction ops as [|op ops IH]; intros self Hh Hw; simpl; [auto|].
  assert (H : 1 <= height (apply_operation self op)
              /\ 1 <= width (apply_operation self op)).
  { destruct op as [new_size|parent [h w]|parent hint|parent];
      unfold apply_operation, set_size_hint, set_pos_hint.
    - apply set_size_at_least_1.
    - apply update_geometry_at_least_1; assumption.
    - apply update_geometry_at_least_1; assumption.
    - apply update_geometry_at_least_1; assumption. }
  destruct H. apply IH; assumption.
Qed.

(** ** The claims about geometry *)

(** C2 (the code departs from the claim).  The constructor stores [size] as
    it is given, without the clamp the [size] setter applies: a widget built
    with [size=(0, 0)] has height 0 and width 0, and with no size hint
    geometry resolution in a parent of size (20, 20) leaves them at 0. *)
Theorem init_stores_size_unclamped :
  height empty_node = 0 /\ width empty_node = 0 /\
  height (update_geometry (Some (20, 20)) empty_node) = 0 /\
  width (update_geometry (Some (20, 20)) empty_node) = 0.
Proof. repeat split. Qed.

(** [Window.resize] stores the size it is given as well, whatever the
    [resize] of its parts does. *)
Lemma window_resize_stores_size_unclamped (resize : Widget -> Size -> Widget)
    (self : Window.Window) :
  Window._size (Window.resize_window resize self (0, 0)) = (0, 0).
Proof. reflexivity. Qed.

(** C5, as stated, fails: with [pos_hint=(-0.5, None)], anchor top-left, in
    a parent of height 5 the resolved top is [int(-2.5) - 0 = -2], where the
    claim's [floor(hint * parent_dimension) - offset] is -3. *)
Lemma negative_pos_hint_truncates :
  let self' := update_geometry (Some (5, 5)) negative_hint_node in
  top self' = -2 /\
  Num.floor (- Num.half * Num.of_int 5)%Qc - fst (anchor_offset self') = -3.
Proof. split; reflexivity. Qed.

(** C5 (amended).  Resolution sets each hinted coordinate to
    [int(parent_dimension * hint)], the product truncated toward zero, minus
    the anchor offset computed from the node's own size as resolved (for the
    center anchor, (height // 2, width // 2)); a coordinate with no hint
    keeps its value.  Where the product is not negative the truncation is
    the floor.  The node of size (10, 10) with center anchor and
    [pos_hint=(0.5, 0.5)] in a parent of size (20, 20) resolves to (5, 5). *)
Theorem pos_hint_resolution (ph pw : Z) (self : Widget) :
  let self' := update_geometry (Some (ph, pw)) self in
  top self' = match y_hint self with
              | Some y => Num.py_int (Num.of_int ph * y)%Qc - fst (anchor_offset self')
              | None => top self
              end
  /\ left self' = match x_hint self with
                  | Some x => Num.py_int (Num.of_int pw * x)%Qc - snd (anchor_offset self')
                  | None => left self
                  end
  /\ (anchor self = CENTER ->
      anchor_offset self' = (height self' / 2, width self' / 2))
  /\ (forall y, y_hint self = Some y -> (0 <= Num.of_int ph * y)%Qc ->
      top self' = Num.floor (Num.of_int ph * y)%Qc - fst (anchor_offset self'))
  /\ (forall x, x_hint self = Some x -> (0 <= Num.of_int pw * x)%Qc ->
      left self' = Num.floor (Num.of_int pw * x)%Qc - snd (anchor_offset self'))
  /\ pos (update_geometry (Some (20, 20)) centered_node) = (5, 5).
Proof.
  intros self'.
  pose proof (pos_update_geometry (ph, pw) self) as Hpos.
  change (update_geometry (Some (ph, pw)) self) with self' in Hpos.
  simpl fst in Hpos; simpl snd in Hpos.
  assert (Ht : top self' = fst (pos self')) by reflexivity.
  assert (Hl : left self' = snd (pos self')) by reflexivity.
  rewrite Hpos in Ht, Hl. simpl in Ht, Hl.
  repeat split; try assumption.
  - intros Hc. unfold anchor_offset, center.
    destruct (update_geometry_settings (Some (ph, pw)) self)
      as (_ & _ & _ & _ & _ & _ & _ & Han & _).
    change (update_geometry (Some (ph, pw)) self) with self' in Han.
    rewrite Han, Hc. reflexivity.
  - intros y Hy Hnn. rewrite Ht, Hy. unfold Num.py_int.
    rewrite (py_ltb_zero_false _ Hnn). reflexivity.
  - intros x Hx Hnn. rewrite Hl, Hx. unfold Num.py_int.
    rewrite (py_ltb_zero_false _ Hnn). reflexivity.
Qed.

(** The scenario of C5, through the theorem. *)
Lemma pos_hint_resolution_centered :
  top (update_geometry (Some (20, 20)) centered_node) = 5 /\
  left (update_geometry (Some (20, 20)) centered_node) = 5.
Proof.
  destruct (pos_hint_resolution 20 20 centered_node) as (_ & _ & _ & Hy & Hx & _).
  split.
  - rewrite (Hy Num.half eq_refl); [reflexivity|].
    unfold Qcle, Qle. intros H. discriminate H.
  - rewrite (Hx Num.half eq_refl); [reflexivity|].
    unfold Qcle, Qle. intros H. discriminate H.
Defined.

(** C6, as stated, fails: with [size_hint=(0.0, None)] and no bounds, in a
    parent of size (20, 20) the resolved height is 1, where the claim's
    [round(hint * parent_dimension)] clamped to the unset bounds is 0. *)
Lemma zero_size_hint_resolves_to_1 :
  height (update_geometry (Some (20, 20)) zero_hint_node) = 1 /\
  clamp (Num.py_round (Num.zero * Num.of_int 20)%Qc)
        (min_height zero_hint_node) (max_height zero_hint_node) = 0.
Proof. split; reflexivity. Qed.

(** C6 (amended).  For a node of height and width at least 1 with a size
    hint set, resolution makes each hinted dimension
    [round(hint * parent_dimension)] clamped to [min, max] (an unset bound
    being unbounded) and then raised to at least 1 by the [size] setter; the
    dimension with no hint keeps its value. *)
Theorem size_hint_resolution (ph pw : Z) (self : Widget) :
  size_hint self <> (None, None) ->
  1 <= height self -> 1 <= width self ->
  let self' := update_geometry (Some (ph, pw)) self in
  height self' = match height_hint self with
                 | Some r => Z.max 1 (clamp (Num.py_round (r * Num.of_int ph)%Qc)
                                            (min_height self) (max_height self))
                 | None => height self
                 end
  /\ width self' = match width_hint self with
                   | Some r => Z.max 1 (clamp (Num.py_round (r * Num.of_int pw)%Qc)
                                              (min_width self) (max_width self))
                   | None => width self
                   end.
Proof.
  intros Hhint Hh Hw self'. subst self'.
  unfold height at 1, width at 1. rewrite size_update_geometry.
  unfold resolved_size, has_size_hint, height_hint, width_hint in *.
  destruct (size_hint self) as [[hh|] [wh|]]; simpl; try congruence;
    split; reflexivity || lia.
Qed.

(** The scenario of C6, through the theorem: height 10 (0.5 of 20), width
    still 10. *)
Lemma size_hint_resolution_half_height :
  height (update_geometry (Some (20, 20)) half_height_node) = 10 /\
  width (update_geometry (Some (20, 20)) half_height_node) = 10.
Proof.
  refine (size_hint_resolution 20 20 half_height_node _ _ _).
  - discriminate.
  - unfold height; simpl; lia.
  - unfold width; simpl; lia.
Defined.

(** C9.  Geometry resolution is idempotent: resolving a node a second time
    against the same parent size, with its hints, bounds and anchor as they
    were, gives the node the first resolution gave, with the same size and
    position, and the same holds all the way down its subtree. *)
Theorem update_geometry_twice (parent : option Size) (self : Widget) :
  let once := update_geometry parent self in
  let twice := update_geometry parent once in
  size twice = size once /\ pos twice = pos once /\ twice = once.
Proof.
  intros once twice. subst once twice.
  rewrite update_geometry_idempotent. repeat split.
Qed.

(* ===================================================================== *)
(** * Dispatch: proofs *)
(* ===================================================================== *)

Lemma up_to_first_app_handled {A : Type} (p : A -> bool) (l l' : list A) :
  existsb p l = true -> up_to_first p (l ++ l') = up_to_first p l.
Proof.
  induction l as [|x l IH]; simpl; [discriminate|].
  destruct (p x); simpl; [reflexivity|]. intros H. rewrite IH by exact H. reflexivity.
Qed.

Lemma up_to_first_app_unhandled {A : Type} (p : A -> bool) (l l' : list A) :
  existsb p l = false -> up_to_first p (l ++ l') = l ++ up_to_first p l'.
Proof.
  induction l as [|x l IH]; simpl; [reflexivity|].
  destruct (p x); simpl; [discriminate|]. intros H. rewrite IH by exact H. reflexivity.
Qed.

Lemma up_to_first_unhandled {A : Type} (p : A -> bool) (l : list A) :
  existsb p l = false -> up_to_first p l = l.
Proof.
  intros H. rewrite <- (app_nil_r l) at 1.
  rewrite up_to_first_app_unhandled by exact H. simpl. apply app_nil_r.
Qed.

Section DispatchFacts.

Context {Event : Type}.
Variable on_event : Widget -> Event -> bool.
Variable event : Event.

#[local] Abbreviation p := (accepts on_event event).

(** The generator of [dispatch] over any run of siblings, each of which
    dispatches as the policy says. *)
Lemma any_lazy_siblings (ws : list Widget) :
  Forall (fun widget => dispatch on_event event widget = first_handler_wins p widget) ws ->
  let reached :=
    concat (map (fun child => if is_enabled child then topmost_first child else []) ws) in
  any_lazy (map (fun widget => (is_enabled widget, dispatch on_event event widget)) ws)
  = (map ident (up_to_first p reached), existsb p reached).
Proof.
  induction 1 as [|c ws Hc _ IH]; simpl; [reflexivity|].
  destruct (is_enabled c); simpl; [|exact IH].
  rewrite Hc. unfold first_handler_wins. rewrite existsb_app.
  destruct (existsb p (topmost_first c)) eqn:E; simpl.
  - rewrite up_to_first_app_handled by exact E. reflexivity.
  - simpl in IH. rewrite IH.
    rewrite up_to_first_app_unhandled by exact E.
    rewrite (up_to_first_unhandled p _ E), map_app. reflexivity.
Qed.

Lemma dispatch_unfold (self : Widget) :
  dispatch on_event event self =
  let '(calls, handled) :=
    any_lazy (rev (map (fun widget => (is_enabled widget, dispatch on_event event widget))
                       (children self))) in
  if handled then (calls, true)
  else (calls ++ [ident self], on_event self event).
Proof. destruct self; reflexivity. Qed.

Lemma topmost_first_unfold (self : Widget) :
  topmost_first self =
  concat (rev (map (fun child => if is_enabled child then topmost_first child else [])
                   (children self)))
  ++ [self].
Proof. destruct self; reflexivity. Qed.

Lemma dispatch_first_handler_wins (self : Widget) :
  dispatch on_event event self = first_handler_wins p self.
Proof.
  induction self as [self IH] using Widget_tree_ind.
  rewrite dispatch_unfold. unfold first_handler_wins.
  rewrite topmost_first_unfold, <- !map_rev.
  rewrite any_lazy_siblings by (apply Forall_rev; exact IH).
  cbv zeta. rewrite existsb_app.
  destruct (existsb p (concat _)) eqn:E; simpl.
  - rewrite up_to_first_app_handled by exact E. reflexivity.
  - rewrite up_to_first_app_unhandled by exact E.
    rewrite (up_to_first_unhandled p _ E), map_app. simpl.
    change (on_event self event) with (p self).
    rewrite orb_false_r. destruct (p self); reflexivity.
Qed.

End DispatchFacts.

Example click_reaches_B_first :
  dispatch_click (Mouse (0, 0) 1) (parent_of 0 true [leaf 1 true; leaf 2 true])
  = ([2%nat], true).
Proof. reflexivity. Qed.

Example click_falls_back_to_A :
  dispatch_click (Mouse (0, 0) 1) (parent_of 0 true [leaf 1 true; leaf 2 false])
  = ([2%nat; 1%nat], true).
Proof. reflexivity. Qed.

Example click_falls_back_to_parent :
  dispatch_click (Mouse (0, 0) 1) (parent_of 0 true [leaf 1 false; leaf 2 false])
  = ([2%nat; 1%nat; 0%nat], true).
Proof. reflexivity. Qed.

(** C3.  Each of the five dispatchers (key press, click, double-click,
    triple-click, paste) follows the policy [topmost_first]: it runs the
    handlers of the enabled descendants depth-first with the children taken
    last to first, leaves out a disabled child with its whole subtree, stops
    at the first handler that returns a truthy value, and runs the widget's
    own handler last, only when no descendant handled the event.  The value
    returned is truthy exactly when some handler that ran returned truthy. *)
Theorem dispatch_topmost_first (self : Widget) :
  (forall e, dispatch_press e self
             = first_handler_wins (fun w => on_press (handlers w) e) self)
  /\ (forall e, dispatch_click e self
                = first_handler_wins (fun w => on_click (handlers w) e) self)
  /\ (forall e, dispatch_double_click e self
                = first_handler_wins (fun w => on_double_click (handlers w) e) self)
  /\ (forall e, dispatch_triple_click e self
                = first_handler_wins (fun w => on_triple_click (handlers w) e) self)
  /\ (forall e, dispatch_paste e self
                = first_handler_wins (fun w => on_paste (handlers w) e) self).
Proof.
  repeat split; intros e; apply dispatch_first_handler_wins.
Qed.

(* ===================================================================== *)
(** * Clipped rendering: proofs *)
(* ===================================================================== *)

Lemma render_intersection_unfold (destination : Slices) (self : Widget) :
  render_intersection destination self =
  let '(vert_slice, hori_slice) := destination in
  let t := start vert_slice in
  let h := stop vert_slice - t in
  let l := start hori_slice in
  let w := stop hori_slice - l in
  let wt := top self - t in
  let wb := bottom self - t in
  let wl := left self - l in
  let wr := right self - l in
  if (wt >=? h) || (wb <? 0) || (wl >=? w) || (wr <? 0) then []
  else
    let '(st, sb, dt, db) := clip_axis wt wb h (height self) in
    let '(sl, sr, dl, dr) := clip_axis wl wr w (width self) in
    mkRenderCall (ident self) (mkSlice dt db, mkSlice dl dr)
                 (mkSlice st sb, mkSlice sl sr)
    :: render_children (mkSlice st sb, mkSlice sl sr) self.
Proof. destruct self, destination; reflexivity. Qed.

(** What the guard of [render_intersection] does prune: a widget that
    starts at or past the end of the destination, or ends strictly before
    its start, on either axis. *)
Lemma render_intersection_pruned (destination : Slices) (self : Widget) :
  stop (fst destination) <= top self \/ bottom self < start (fst destination) \/
  stop (snd destination) <= left self \/ right self < start (snd destination) ->
  render_intersection destination self = [].
Proof.
  intros H. rewrite render_intersection_unfold.
  destruct destination as [vert_slice hori_slice]; simpl in *.
  replace ((top self - start vert_slice >=? stop vert_slice - start vert_slice)
           || (bottom self - start vert_slice <? 0)
           || (left self - start hori_slice >=? stop hori_slice - start hori_slice)
           || (right self - start hori_slice <? 0)) with true; [reflexivity|].
  symmetry. rewrite !orb_true_iff, !Z.geb_le, !Z.ltb_lt. lia.
Qed.

(** C4 (the code departs from the claim).  The widget covers rows [0, 2),
    the destination covers rows [2, 5): they share no row.  [render] is
    still called on the widget, with an empty row range, and then on its
    child. *)
Theorem render_intersection_touching_edge :
  outside rows_below two_rows = true /\
  render_intersection rows_below two_rows
  = [ mkRenderCall 1 (mkSlice 0 0, mkSlice 0 3) (mkSlice 2 2, mkSlice 0 3);
      mkRenderCall 2 (mkSlice 0 0, mkSlice 0 3) (mkSlice 2 2, mkSlice 0 3) ].
Proof. split; reflexivity. Qed.

(* ===================================================================== *)
(** * Subscriptions: proofs *)
(* ===================================================================== *)

Lemma fresh_lookup_size :
  Subscriptions.fresh !! "size" = Some (∅ : gmap nat (gmap nat Subscriptions.Action)).
Proof. reflexivity. Qed.

(** Once some widget has subscribed to the property of [source], a widget
    that has not gets [None] from [unsubscribe]. *)
Lemma unsubscribe_unregistered_after_subscribe
    (reg reg' : gmap string (gmap nat (gmap nat Subscriptions.Action)))
    (self other source : nat) (attr : string) (action : Subscriptions.Action) :
  self <> other ->
  ~ Subscriptions.registered reg self source attr ->
  Subscriptions.subscribe reg other source attr action = Ok reg' ->
  exists reg'', Subscriptions.unsubscribe reg' self source attr = Ok (None, reg'').
Proof.
  intros Hne Hnot Hsub.
  unfold Subscriptions.subscribe, Subscriptions.fset_instances in Hsub.
  destruct (reg !! attr) as [instances|] eqn:Hattr; simpl in Hsub; [|discriminate].
  injection Hsub as <-.
  unfold Subscriptions.unsubscribe, Subscriptions.fset_instances.
  rewrite lookup_insert_eq. simpl. rewrite lookup_insert_eq.
  rewrite lookup_insert_ne by congruence.
  destruct (instances !! source) as [subscribers|] eqn:Hsrc; simpl.
  - destruct (subscribers !! self) as [a|] eqn:Hself.
    + exfalso. apply Hnot. exists instances, subscribers. rewrite Hself. eauto.
    + eexists. reflexivity.
  - rewrite lookup_empty. eexists. reflexivity.
Qed.

(** C8 (the code departs from the claim).  On the registry as it is when no
    widget has subscribed to anything, widget 1 unsubscribing from the
    [size] of widget 2 raises [KeyError]: [setter.instances[source]] has no
    entry for the source. *)
Theorem unsubscribe_without_subscribers_raises :
  Subscriptions.unsubscribe Subscriptions.fresh 1 2 "size" = Raise KeyError.
Proof. reflexivity. Qed.

(** A property whose setter is not an emitter has no [instances] at all. *)
Lemma unsubscribe_not_an_emitter :
  Subscriptions.unsubscribe Subscriptions.fresh 1 2 "height" = Raise AttributeError.
Proof. reflexivity. Qed.

(* ===================================================================== *)
(** * Numbers: proofs *)
(* ===================================================================== *)

Lemma floor_of_int (z : Z) : Qfloor (this (Num.of_int z)) = z.
Proof.
  unfold Num.of_int, Qc_of_Z. simpl this. apply Qfloor_Z.
Qed.

Lemma ceiling_of_int (z : Z) : Qceiling (this (Num.of_int z)) = z.
Proof.
  unfold Num.of_int, Qc_of_Z. simpl this. apply Qceiling_Z.
Qed.

Lemma zero_is_0 : Num.zero = 0%Qc.
Proof. apply Qc_is_canon. reflexivity. Qed.

Lemma one_is_1 : Num.one = 1%Qc.
Proof. apply Qc_is_canon. reflexivity. Qed.

Lemma py_int_of_int (z : Z) : Num.py_int (Num.of_int z) = z.
Proof.
  unfold Num.py_int. destruct (Num.ltb _ _).
  - apply ceiling_of_int.
  - apply floor_of_int.
Qed.

Lemma py_round_of_int (z : Z) : Num.py_round (Num.of_int z) = z.
Proof.
  unfold Num.py_round. rewrite floor_of_int.
  replace (Num.of_int z - Num.of_int z)%Qc with 0%Qc by float_ring.
  reflexivity.
Qed.

(* ===================================================================== *)
(** * Graphics: proofs *)
(* ===================================================================== *)

Lemma norm_alpha_zero (self : Graphics.Gadget) :
  Graphics.alpha self = Num.zero -> Graphics.norm_alpha self = Num.zero.
Proof.
  intros H. unfold Graphics.norm_alpha. rewrite H.
  rewrite zero_is_0. unfold Qcdiv. float_ring.
Qed.

Lemma blend_channel_zero (texel existing texel_alpha : Z) :
  is_uint8 existing ->
  Graphics.blend_channel texel existing texel_alpha Num.zero = existing.
Proof.
  intros H. unfold Graphics.blend_channel, Graphics.to_uint8.
  rewrite zero_is_0.
  replace ((Num.of_int texel - Num.of_int existing) * Num.of_int texel_alpha * 0
           + Num.of_int existing)%Qc with (Num.of_int existing) by float_ring.
  rewrite py_int_of_int. apply Z.mod_small. exact H.
Qed.

Lemma blend_zero (texel : Graphics.RGBA) (existing : Graphics.RGB) :
  uint8_rgb existing -> Graphics.blend texel existing Num.zero = existing.
Proof.
  destruct texel as [[[r g] b] a], existing as [[er eg] eb].
  intros (Hr & Hg & Hb); simpl in *.
  rewrite !blend_channel_zero by assumption. reflexivity.
Qed.

Lemma render_cell_alpha_zero (self : Graphics.Gadget) (p : Point) (c : Graphics.Cell) :
  Graphics.alpha self = Num.zero -> uint8_cell c ->
  Graphics.render_cell_transparent self p c = flattened c.
Proof.
  intros Ha [Hfg Hbg]. unfold Graphics.render_cell_transparent, flattened, flat_base.
  rewrite (norm_alpha_zero self Ha).
  rewrite !blend_zero; [reflexivity | assumption |].
  destruct (_ =? _); assumption.
Qed.

Lemma flattened_uint8 (c : Graphics.Cell) : uint8_cell c -> uint8_cell (flattened c).
Proof.
  intros [Hfg Hbg]. unfold flattened, flat_base, uint8_cell; simpl.
  destruct (_ =? _); split; assumption.
Qed.

Lemma flattened_twice (c : Graphics.Cell) : flattened (flattened c) = flattened c.
Proof. reflexivity. Qed.

(** The whole transparent pass with alpha 0, cell by cell. *)
Lemma fold_render_rect_alpha_zero (self : Graphics.Gadget) (rects : list Graphics.Rect)
    (screen : Graphics.Screen) (p : Point) :
  Graphics.is_transparent self = true -> Graphics.alpha self = Num.zero ->
  uint8_cell (screen p) ->
  fold_left (Graphics.render_rect self) rects screen p =
  if existsb (fun r => Graphics.in_rect r p) rects then flattened (screen p) else screen p.
Proof.
  intros Ht Ha. revert screen.
  induction rects as [|r rects IH]; intros screen Hc; simpl; [reflexivity|].
  assert (Hstep : Graphics.render_rect self screen r p =
                  if Graphics.in_rect r p then flattened (screen p) else screen p).
  { unfold Graphics.render_rect. rewrite Ht.
    destruct (Graphics.in_rect r p); [|reflexivity].
    apply render_cell_alpha_zero; assumption. }
  rewrite IH.
  - rewrite Hstep. destruct (Graphics.in_rect r p); simpl; [|reflexivity].
    rewrite flattened_twice. destruct (existsb _ rects); reflexivity.
  - rewrite Hstep. destruct (Graphics.in_rect r p); [apply flattened_uint8|]; exact Hc.
Qed.

(** C1, as stated, fails: the cell at (0, 0) is covered, the gadget is
    transparent with alpha 0, and the cell's foreground goes from white to
    the black of its background. *)
Lemma alpha_zero_flattens_foreground :
  Graphics.is_transparent invisible_gadget = true /\
  Graphics.alpha invisible_gadget = Num.zero /\
  Graphics.covered invisible_gadget (0, 0) = true /\
  Graphics.foreground (letter_A (0, 0)) = (255, 255, 255) /\
  Graphics.foreground (Graphics.render invisible_gadget letter_A (0, 0)) = (0, 0, 0).
Proof. repeat split. Qed.

(** C1 (amended).  A transparent gadget with alpha 0 leaves the background
    color of every cell it covers unchanged, and the foreground color
    unchanged where the cell already shows the half block; in any other
    covered cell the foreground becomes the cell's background color, the
    flat base onto which the blend then adds nothing.  Every covered cell
    shows the half block afterwards. *)
Theorem transparent_alpha_zero (self : Graphics.Gadget) (screen : Graphics.Screen)
    (p : Point) :
  Graphics.is_transparent self = true ->
  Graphics.alpha self = Num.zero ->
  Graphics.covered self p = true ->
  uint8_cell (screen p) ->
  let before := screen p in
  let after := Graphics.render self screen p in
  Graphics.background after = Graphics.background before
  /\ Graphics.foreground after =
     (if Graphics.char before =? Graphics.HALF_BLOCK
      then Graphics.foreground before
      else Graphics.background before)
  /\ Graphics.char after = Graphics.HALF_BLOCK.
Proof.
  intros Ht Ha Hcov Hc before after. subst before after.
  unfold Graphics.render, Graphics.covered in *.
  rewrite fold_render_rect_alpha_zero by assumption.
  rewrite Hcov. repeat split.
Qed.

Lemma transparent_alpha_zero_half_block :
  Graphics.background (Graphics.render invisible_gadget half_block_screen (0, 0)) = (0, 0, 0)
  /\ Graphics.foreground (Graphics.render invisible_gadget half_block_screen (0, 0))
     = (255, 255, 255)
  /\ Graphics.char (Graphics.render invisible_gadget half_block_screen (0, 0))
     = Graphics.HALF_BLOCK.
Proof.
  refine (transparent_alpha_zero invisible_gadget half_block_screen (0, 0) _ _ _ _).
  - reflexivity.
  - reflexivity.
  - reflexivity.
  - unfold uint8_cell, uint8_rgb, is_uint8; simpl. lia.
Defined.

(** Cells outside the region are not touched. *)
Lemma render_uncovered (self : Graphics.Gadget) (screen : Graphics.Screen) (p : Point) :
  Graphics.covered self p = false -> Graphics.render self screen p = screen p.
Proof.
  unfold Graphics.render, Graphics.covered.
  generalize (Graphics.region self). intros rects. revert screen.
  induction rects as [|r rects IH]; intros screen; simpl; [reflexivity|].
  rewrite orb_false_iff. intros [Hr Hrest].
  rewrite IH by exact Hrest. unfold Graphics.render_rect. rewrite Hr. reflexivity.
Qed.

(** ** The [alpha] setter *)

Lemma ltb_lt (x y : float) : Num.ltb x y = true <-> (x < y)%Qc.
Proof.
  unfold Num.ltb. rewrite Qclt_alt.
  destruct (x ?= y)%Qc; split; congruence.
Qed.

Lemma ltb_ge (x y : float) : Num.ltb x y = false <-> (y <= x)%Qc.
Proof.
  split; intros H.
  - apply Qcnot_lt_le. intros Hlt. apply ltb_lt in Hlt. congruence.
  - destruct (Num.ltb x y) eqn:E; [|reflexivity].
    apply ltb_lt in E. exfalso. exact (Qcle_not_lt _ _ H E).
Qed.



(* ===================================================================== *)
(** * Tweens: proofs *)
(* ===================================================================== *)

Lemma completions_app (l l' : list Tween.Event) :
  completions (l ++ l') = (completions l + completions l')%nat.
Proof. unfold completions. rewrite filter_app, length_app. reflexivity. Qed.

Lemma completions_target_events (props : list (string * Tween.Value)) :
  completions (Tween.target_events props) = 0%nat.
Proof. induction props; simpl; auto. Qed.

Lemma progress_at_start (t0 d : float) :
  d <> Num.zero -> (1 - (t0 + d - t0) / d)%Qc = 0%Qc.
Proof. rewrite zero_is_0. intros H. field. exact H. Qed.

Lemma lerp_at_zero (a b : Tween.Number) : Tween.lerp a b 0%Qc = Tween.to_float a.
Proof. unfold Tween.lerp. ring. Qed.

Lemma all_ok_ints_at_zero (items targets : list (option Tween.Number)) :
  forallb Tween.is_int items = true ->
  length items = length targets ->
  forallb Tween.target_fits (Tween.zip items targets) = true ->
  Tween.all_ok
    (map (fun ij => x <-! Tween.lerp_item (fst ij) (snd ij) 0%Qc;
                    Ok (Some (Tween.Int (Num.py_round x))))
         (Tween.zip items targets)) = Ok items.
Proof.
  revert targets. induction items as [|i items IH]; intros [|j targets]; simpl;
    try discriminate; [reflexivity|].
  intros Hint Hlen Hfit.
  apply andb_prop in Hint as [Hi Hint]. apply andb_prop in Hfit as [Hj Hfit].
  destruct i as [[i|x]|]; try discriminate.
  destruct j as [j|]; try discriminate. simpl.
  rewrite lerp_at_zero. simpl. rewrite py_round_of_int.
  rewrite IH by (auto; lia). reflexivity.
Qed.

Lemma all_ok_floats_at_zero (items targets : list (option Tween.Number)) :
  forallb Tween.is_float_or_none items = true ->
  length items = length targets ->
  forallb Tween.target_fits (Tween.zip items targets) = true ->
  Tween.all_ok
    (map (fun ij => match fst ij with
                    | None => Ok None
                    | Some _ => x <-! Tween.lerp_item (fst ij) (snd ij) 0%Qc;
                                Ok (Some (Tween.Float x))
                    end)
         (Tween.zip items targets)) = Ok items.
Proof.
  revert targets. induction items as [|i items IH]; intros [|j targets]; simpl;
    try discriminate; [reflexivity|].
  intros Hfl Hlen Hfit.
  apply andb_prop in Hfl as [Hi Hfl]. apply andb_prop in Hfit as [Hj Hfit].
  destruct i as [[i|x]|]; try discriminate; simpl.
  - destruct j as [j|]; try discriminate. simpl.
    rewrite lerp_at_zero. simpl. rewrite IH by (auto; lia). reflexivity.
  - rewrite IH by (auto; lia). reflexivity.
Qed.

(** Sampled with progress 0, a property gets its start value back. *)
Lemma interpolate_at_zero (v0 v1 : Tween.Value) :
  Tween.tweenable v0 v1 = true ->
  Tween.interpolate v0 v1 0%Qc = Ok (Some v0).
Proof.
  destruct v0 as [[i|x]|[|i items]|], v1 as [t|targets|]; try discriminate;
    cbn [Tween.interpolate Tween.tweenable].
  - intros _. rewrite lerp_at_zero. simpl. rewrite py_round_of_int. reflexivity.
  - intros _. rewrite lerp_at_zero. reflexivity.
  - intros H. apply andb_prop in H as [H Hfit]. apply andb_prop in H as [Hkind Hlen].
    apply Nat.eqb_eq in Hlen.
    destruct i as [[i|x]|]; cbv beta match.
    + assert (Hint : forallb Tween.is_int (Some (Tween.Int i) :: items) = true).
      { apply orb_prop in Hkind as [H|H]; [exact H|discriminate H]. }
      rewrite (all_ok_ints_at_zero _ _ Hint Hlen Hfit). reflexivity.
    + assert (Hfl : forallb Tween.is_float_or_none (Some (Tween.Float x) :: items) = true).
      { apply orb_prop in Hkind as [H|H]; [discriminate H|exact H]. }
      rewrite (all_ok_floats_at_zero _ _ Hfl Hlen Hfit). reflexivity.
    + assert (Hfl : forallb Tween.is_float_or_none (None :: items) = true).
      { apply orb_prop in Hkind as [H|H]; [discriminate H|exact H]. }
      rewrite (all_ok_floats_at_zero _ _ Hfl Hlen Hfit). reflexivity.
Qed.

Lemma all_ok_ints (p : float) (items targets : list (option Tween.Number)) :
  forallb Tween.is_int items = true ->
  forallb Tween.target_fits (Tween.zip items targets) = true ->
  exists vs,
    Tween.all_ok
      (map (fun ij => x <-! Tween.lerp_item (fst ij) (snd ij) p;
                      Ok (Some (Tween.Int (Num.py_round x))))
           (Tween.zip items targets)) = Ok vs.
Proof.
  revert targets. induction items as [|i items IH]; intros [|j targets]; simpl;
    try (intros; eexists; reflexivity).
  intros Hint Hfit.
  apply andb_prop in Hint as [Hi Hint]. apply andb_prop in Hfit as [Hj Hfit].
  destruct i as [[i|x]|]; try discriminate.
  destruct j as [j|]; try discriminate. simpl.
  destruct (IH targets Hint Hfit) as [vs ->]. eexists. reflexivity.
Qed.

Lemma all_ok_floats (p : float) (items targets : list (option Tween.Number)) :
  forallb Tween.target_fits (Tween.zip items targets) = true ->
  exists vs,
    Tween.all_ok
      (map (fun ij => match fst ij with
                      | None => Ok None
                      | Some _ => x <-! Tween.lerp_item (fst ij) (snd ij) p;
                                  Ok (Some (Tween.Float x))
                      end)
           (Tween.zip items targets)) = Ok vs.
Proof.
  revert targets. induction items as [|i items IH]; intros [|j targets]; simpl;
    try (intros; eexists; reflexivity).
  intros Hfit. apply andb_prop in Hfit as [Hj Hfit].
  destruct (IH targets Hfit) as [vs Hvs].
  destruct i as [i|]; simpl.
  - destruct j as [j|]; try discriminate. simpl. rewrite Hvs. eexists. reflexivity.
  - rewrite Hvs. eexists. reflexivity.
Qed.

(** Whatever the progress, a property of a listed shape is given a value. *)
Lemma interpolate_tweenable (v0 v1 : Tween.Value) (p : float) :
  Tween.tweenable v0 v1 = true ->
  exists v, Tween.interpolate v0 v1 p = Ok (Some v).
Proof.
  destruct v0 as [[i|x]|[|i items]|], v1 as [t|targets|]; try discriminate;
    cbn [Tween.interpolate Tween.tweenable];
    try (intros; eexists; reflexivity).
  intros H. apply andb_prop in H as [H Hfit]. apply andb_prop in H as [Hkind Hlen].
  destruct i as [[i|x]|]; cbv beta match.
  - assert (Hint : forallb Tween.is_int (Some (Tween.Int i) :: items) = true).
    { apply orb_prop in Hkind as [H|H]; [exact H|discriminate H]. }
    destruct (all_ok_ints p _ _ Hint Hfit) as [vs ->]. eexists. reflexivity.
  - destruct (all_ok_floats p _ _ Hfit) as [vs ->]. eexists. reflexivity.
  - destruct (all_ok_floats p _ _ Hfit) as [vs ->]. eexists. reflexivity.
Qed.

Lemma zip_map_self {A B : Type} (f : A -> B) (l : list A) :
  Tween.zip (map f l) l = map (fun x => (f x, x)) l.
Proof. induction l as [|x l IH]; simpl; [reflexivity|]. rewrite IH. reflexivity. Qed.

Section TweenFacts.

Context {Obj : Type}.
Variable getattr : Obj -> string -> Tween.Value.
Variable setattr : Obj -> string -> Tween.Value -> Obj.

Lemma update_properties_events (p : float) (items : list (Tween.Value * (string * Tween.Value)))
    (fr fr' : Tween.Frame) :
  Tween.update_properties setattr p fr items = Ok fr' ->
  exists sets, Tween.trace fr' = Tween.trace fr ++ sets /\ completions sets = 0%nat.
Proof.
  revert fr. induction items as [|[sv [prop target]] items IH]; intros fr; simpl.
  - intros [= <-]. exists []. rewrite app_nil_r. auto.
  - destruct (Tween.interpolate sv target p) as [matched|]; simpl; [|discriminate].
    destruct (match matched with Some v => Some v | None => Tween.value fr end)
      as [v|]; simpl; [|discriminate].
    intros H. apply IH in H as (sets & Htr & Hc). simpl in Htr.
    exists (Tween.SetAttr prop v :: sets). rewrite Htr, <- app_assoc. auto.
Qed.

Lemma update_properties_fits (p : float) (items : list (Tween.Value * (string * Tween.Value)))
    (fr : Tween.Frame) :
  Forall fits items ->
  exists fr', Tween.update_properties setattr p fr items = Ok fr'.
Proof.
  intros H. revert fr. induction H as [|[sv [prop target]] items Hfit _ IH]; intros fr; simpl.
  - eexists. reflexivity.
  - destruct (interpolate_tweenable sv target p Hfit) as [v ->]. simpl. apply IH.
Qed.

Lemma update_properties_at_zero (items : list (Tween.Value * (string * Tween.Value)))
    (fr : Tween.Frame) :
  Forall fits items ->
  exists fr', Tween.update_properties setattr 0%Qc fr items = Ok fr' /\
              Tween.trace fr' =
              Tween.trace fr ++ map (fun it => Tween.SetAttr (fst (snd it)) (fst it)) items.
Proof.
  intros H. revert fr. induction H as [|[sv [prop target]] items Hfit _ IH]; intros fr; simpl.
  - eexists. rewrite app_nil_r. auto.
  - rewrite (interpolate_at_zero sv target Hfit). simpl.
    destruct (IH (Tween.mkFrame (setattr (Tween.self fr) prop sv) (Some sv)
                                (Tween.trace fr ++ [Tween.SetAttr prop sv])))
      as (fr' & -> & Htr).
    exists fr'. split; [reflexivity|]. rewrite Htr. simpl. rewrite <- app_assoc. reflexivity.
Qed.

Variable args : Tween.Args.
Variable end_time : float.
Variable start_values : list Tween.Value.

(** A run that completes ends with the writes of the exact targets and
    then the completion callback, which fired at no other time. *)
Lemma tween_loop_completed (clock : list float) (fr : Tween.Frame)
    (obj' : Obj) (events : list Tween.Event) :
  Tween.tween_loop setattr args end_time start_values clock fr
  = Tween.Completed obj' events ->
  exists before obj_b,
    events = before ++ Tween.target_events (Tween.properties args)
             ++ complete_events args
    /\ obj' = Tween.set_targets setattr obj_b (Tween.properties args)
    /\ completions before = completions (Tween.trace fr).
Proof.
  revert fr. induction clock as [|now clock IH]; intros fr; simpl; [discriminate|].
  destruct (Num.ltb now end_time).
  - destruct (Qc_eq_dec _ _); [discriminate|].
    destruct (Tween.update_properties _ _ _ _) as [fr'|] eqn:E; [|discriminate].
    intros H. apply IH in H as (before & obj_b & -> & -> & Hc).
    exists before, obj_b. repeat split. rewrite Hc. simpl.
    apply update_properties_events in E as (sets & -> & Hs).
    rewrite !completions_app, Hs.
    destruct (Tween.on_progress args); unfold completions; simpl; lia.
  - intros [= <- <-]. exists (Tween.trace fr), (Tween.self fr). auto.
Qed.

Hypothesis duration_not_zero : Tween.duration args <> Num.zero.
Hypothesis shapes_fit : Forall fits (Tween.zip start_values (Tween.properties args)).

(** With properties of the listed shapes nothing raises: the run is
    complete or suspended, and the events so far are kept. *)
Lemma tween_loop_extends (clock : list float) (fr : Tween.Frame) :
  exists obj' rest,
    Tween.tween_loop setattr args end_time start_values clock fr
    = Tween.Completed obj' (Tween.trace fr ++ rest)
    \/ Tween.tween_loop setattr args end_time start_values clock fr
       = Tween.Suspended obj' (Tween.trace fr ++ rest).
Proof.
  revert fr. induction clock as [|now clock IH]; intros fr; simpl.
  - exists (Tween.self fr), []. rewrite app_nil_r. auto.
  - destruct (Num.ltb now end_time).
    + destruct (Qc_eq_dec _ _) as [E|_]; [contradiction|].
      destruct (update_properties_fits
                  (Tween.easing args (1 - (end_time - now) / Tween.duration args)%Qc)
                  _ fr shapes_fit) as [fr' E].
      rewrite E.
      destruct (update_properties_events _ _ _ _ E) as (sets & Htr & _).
      match goal with
      | |- context [Tween.tween_loop _ _ _ _ _ ?f] =>
          destruct (IH f) as (obj' & rest & H)
      end.
      exists obj', (sets ++ (if Tween.on_progress args then [Tween.OnProgress] else [])
                         ++ [Tween.Sleep] ++ rest).
      destruct H as [H|H]; rewrite H; [left|right]; f_equal; simpl;
        rewrite Htr, <- !app_assoc; reflexivity.
    + eexists _, _. left. reflexivity.
Qed.

(** Once the clock shows a reading at or past the end time, the run is
    complete. *)
Lemma tween_loop_completes (clock : list float) (fr : Tween.Frame) :
  Exists (fun now => Num.ltb now end_time = false) clock ->
  exists obj' events,
    Tween.tween_loop setattr args end_time start_values clock fr
    = Tween.Completed obj' events.
Proof.
  intros H. revert fr. induction clock as [|now clock IH]; intros fr.
  - inversion H.
  - simpl. destruct (Num.ltb now end_time) eqn:Enow.
    + destruct (Qc_eq_dec _ _) as [E|_]; [contradiction|].
      destruct (update_properties_fits
                  (Tween.easing args (1 - (end_time - now) / Tween.duration args)%Qc)
                  _ fr shapes_fit) as [fr' ->].
      apply IH. inversion H; subst; [congruence|assumption].
    + eexists _, _. reflexivity.
Qed.

End TweenFacts.

Lemma ltb_start_end (t0 d : float) : (0 < d)%Qc -> Num.ltb t0 (t0 + d)%Qc = true.
Proof.
  intros H. apply ltb_lt. apply Qclt_minus_iff.
  replace (t0 + d + - t0)%Qc with d by ring. exact H.
Qed.

Lemma positive_not_zero (d : float) : (0 < d)%Qc -> d <> Num.zero.
Proof.
  intros H ->. rewrite zero_is_0 in H. exact (Qcle_not_lt _ _ (Qcle_refl 0%Qc) H).
Qed.


(** A widget at (0, 0) is moved to (5, 10) over one second, with all three
    callbacks; the clock reads 0 at the start, then 0, 1/2 and 1. *)
Example tween_pos_run :
  Tween.tween Tween.widget_getattr Tween.widget_setattr move_args
              [Num.zero; Num.zero; Num.half; Num.one] (default_widget 1)
  = Tween.Completed
      (set_pos (default_widget 1) (5, 10))
      [ Tween.OnStart;
        Tween.SetAttr "pos" (Tween.VSeq [Some (Tween.Int 0); Some (Tween.Int 0)]);
        Tween.OnProgress; Tween.Sleep;
        Tween.SetAttr "pos" (Tween.VSeq [Some (Tween.Int 2); Some (Tween.Int 5)]);
        Tween.OnProgress; Tween.Sleep;
        Tween.SetAttr "pos" (Tween.VSeq [Some (Tween.Int 5); Some (Tween.Int 10)]);
        Tween.OnComplete ].
Proof. vm_compute. reflexivity. Qed.


(* ===================================================================== *)
(** * More about geometry *)
(* ===================================================================== *)

(** X1.  Assigning [bottom] and then [right] puts the bottom edge and the
    right edge where asked, changes neither height nor width, and the two
    assignments can be made in either order. *)
Theorem bottom_right_setters (self : Widget) (b r : Z) :
  let self' := set_right (set_bottom self b) r in
  bottom self' = b /\ right self' = r /\ size self' = size self
  /\ self' = set_bottom (set_right self r) b.
Proof.
  destruct self as [i [h w] [t l] ? ? ? ? ? ? ? ? ? ? ? ?].
  unfold set_right, set_bottom, set_left, set_top, set_pos, with_pos,
    bottom, right, top, left, height, width; simpl.
  repeat split; lia.
Qed.

Lemma walk_unfold (self : Widget) :
  walk self = flat_map (fun child => child :: walk child) (children self).
Proof. destruct self; reflexivity. Qed.

Lemma settings_of_update_geometry (parent : option Size) (self : Widget) :
  settings_of (update_geometry parent self) = settings_of self.
Proof.
  destruct (update_geometry_settings parent self)
    as (H1 & H2 & H3 & H4 & H5 & H6 & H7 & H8 & H9 & H10 & H11 & _).
  unfold settings_of. congruence.
Qed.

Lemma settings_of_walk_update_geometry (self : Widget) :
  forall parent,
    map settings_of (walk (update_geometry parent self)) = map settings_of (walk self).
Proof.
  induction self as [self IH] using Widget_tree_ind. intros [p|].
  2: { destruct self; reflexivity. }
  rewrite (walk_unfold (update_geometry _ _)), (walk_unfold self).
  rewrite children_update_geometry.
  destruct (has_size_hint self); [|reflexivity].
  induction (children self) as [|c cs IHcs]; [reflexivity|].
  inversion IH as [|? ? Hc Hcs]; subst. simpl.
  rewrite !map_app. simpl.
  rewrite settings_of_update_geometry, Hc. f_equal. f_equal.
  apply IHcs. exact Hcs.
Qed.

(** X2.  Geometry resolution edits sizes and positions only: all the way
    down the tree it keeps the same widgets in the same order, with their
    hints, bounds, anchors and flags as they were. *)
Theorem update_geometry_keeps_tree (parent : option Size) (self : Widget) :
  map settings_of (update_geometry parent self :: walk (update_geometry parent self))
  = map settings_of (self :: walk self).
Proof.
  simpl. rewrite settings_of_update_geometry, settings_of_walk_update_geometry.
  reflexivity.
Qed.

Lemma py_round_one_times (z : Z) : Num.py_round (Num.one * Num.of_int z)%Qc = z.
Proof.
  rewrite one_is_1. replace (1 * Num.of_int z)%Qc with (Num.of_int z) by ring.
  apply py_round_of_int.
Qed.

(** X3.  When a widget is given a new size, each of its children that has
    [size_hint=(1.0, 1.0)] and no bounds is re-resolved at once and ends
    with exactly the size the widget ends with. *)
Theorem full_size_child_follows_parent (self child : Widget) (new_size : Size) :
  In child (children self) ->
  size_hint child = (Some Num.one, Some Num.one) ->
  min_height child = None -> max_height child = None ->
  min_width child = None -> max_width child = None ->
  let self' := set_size self new_size in
  let child' := update_geometry (Some (size self')) child in
  In child' (children self') /\ size child' = size self'.
Proof.
  intros Hin Hhint Hmh HMh Hmw HMw self' child'. subst self' child'.
  destruct new_size as [h w]. unfold set_size, size_setter. simpl.
  split.
  - apply in_map. exact Hin.
  - rewrite size_update_geometry.
    unfold resolved_size, has_size_hint, height_hint, width_hint, hinted.
    rewrite Hhint, Hmh, HMh, Hmw, HMw. simpl.
    rewrite !py_round_one_times. unfold clamp at 1 3. rewrite !clamp_at_least_1.
    f_equal; lia.
Qed.

Lemma floor_half (z : Z) : Qfloor (this (Num.of_int z * Num.half)%Qc) = z / 2.
Proof.
  simpl this. rewrite (Qfloor_comp _ _ (Qred_correct _)).
  unfold Qfloor, Qmult, inject_Z. simpl. f_equal. lia.
Qed.

Lemma half_nonneg (z : Z) : 0 <= z -> (0 <= Num.of_int z * Num.half)%Qc.
Proof.
  intros H. unfold Qcle. simpl this.
  rewrite (Qred_correct (inject_Z z * (1 # 2))).
  unfold Qle, Qmult, inject_Z. simpl. lia.
Qed.

Lemma py_int_half (z : Z) : 0 <= z -> Num.py_int (Num.of_int z * Num.half)%Qc = z / 2.
Proof.
  intros H. unfold Num.py_int.
  rewrite (py_ltb_zero_false _ (half_nonneg z H)). apply floor_half.
Qed.

(** X4.  With the center anchor and [pos_hint=(0.5, 0.5)], resolution
    centers the widget in its parent: the free space above and below it
    differ by at most one row, the free space left and right of it by at
    most one column. *)
Theorem center_hint_centers (ph pw : Z) (self : Widget) :
  0 <= ph -> 0 <= pw ->
  anchor self = CENTER ->
  pos_hint self = (Some Num.half, Some Num.half) ->
  let self' := update_geometry (Some (ph, pw)) self in
  -1 <= top self' - (ph - bottom self') <= 1
  /\ -1 <= left self' - (pw - right self') <= 1.
Proof.
  intros Hph Hpw Han Hhint self'.
  pose proof (pos_update_geometry (ph, pw) self) as Hpos.
  change (update_geometry (Some (ph, pw)) self) with self' in Hpos.
  unfold y_hint, x_hint in Hpos. rewrite Hhint in Hpos.
  cbn [fst snd] in Hpos. rewrite !py_int_half in Hpos by assumption.
  assert (Hoff : anchor_offset self' = (height self' / 2, width self' / 2)).
  { unfold anchor_offset, center.
    destruct (update_geometry_settings (Some (ph, pw)) self)
      as (_ & _ & _ & _ & _ & _ & _ & Ha & _).
    change (update_geometry (Some (ph, pw)) self) with self' in Ha.
    rewrite Ha, Han. reflexivity. }
  rewrite Hoff in Hpos. cbn [fst snd] in Hpos.
  unfold bottom, right, top, left. rewrite Hpos. cbn [fst snd].
  pose proof (Z.div_mod ph 2 ltac:(lia)). pose proof (Z.mod_pos_bound ph 2 ltac:(lia)).
  pose proof (Z.div_mod pw 2 ltac:(lia)). pose proof (Z.mod_pos_bound pw 2 ltac:(lia)).
  pose proof (Z.div_mod (height self') 2 ltac:(lia)).
  pose proof (Z.mod_pos_bound (height self') 2 ltac:(lia)).
  pose proof (Z.div_mod (width self') 2 ltac:(lia)).
  pose proof (Z.mod_pos_bound (width self') 2 ltac:(lia)).
  lia.
Qed.

Lemma py_max_zero_nonneg (x : float) : (0 <= Num.py_max x Num.zero)%Qc.
Proof.
  unfold Num.py_max, Num.gtb. rewrite <- zero_is_0.
  destruct (Num.ltb x Num.zero) eqn:E.
  - apply Qcle_refl.
  - apply ltb_ge. exact E.
Qed.

(** X5.  After [size_hint] is assigned, with or without a parent, no stored
    component is negative, and a component is [None] exactly when [None]
    was assigned. *)
Theorem size_hint_never_negative (parent : option Size) (self : Widget)
    (hint : SizeHint) :
  let self' := set_size_hint parent self hint in
  match height_hint self', fst hint with
  | Some r, Some _ => (0 <= r)%Qc
  | None, None => True
  | _, _ => False
  end
  /\ match width_hint self', snd hint with
     | Some r, Some _ => (0 <= r)%Qc
     | None, None => True
     | _, _ => False
     end.
Proof.
  destruct hint as [h w]. unfold set_size_hint. cbv zeta.
  unfold height_hint, width_hint.
  destruct (update_geometry_settings parent
              (with_size_hint self
                 (option_map (fun h => Num.py_max h Num.zero) h,
                  option_map (fun w => Num.py_max w Num.zero) w)))
    as (_ & -> & _).
  simpl. destruct h, w; simpl; split; auto using py_max_zero_nonneg.
Qed.

(** X3 at a parent resized to 4 rows and 6 columns. *)
Lemma full_size_child_follows_parent_framed :
  In (update_geometry (Some (4, 6)) full_size_child)
     (children (set_size framed (4, 6)))
  /\ size (update_geometry (Some (4, 6)) full_size_child) = (4, 6).
Proof.
  refine (full_size_child_follows_parent framed full_size_child (4, 6) _ _ _ _ _ _).
  - left. reflexivity.
  - reflexivity.
  - reflexivity.
  - reflexivity.
  - reflexivity.
  - reflexivity.
Defined.

(** X4 at a widget of ten rows and ten columns in a parent of twenty. *)
Lemma center_hint_centers_in_twenty :
  -1 <= top (update_geometry (Some (20, 20)) centered_node)
        - (20 - bottom (update_geometry (Some (20, 20)) centered_node)) <= 1
  /\ -1 <= left (update_geometry (Some (20, 20)) centered_node)
           - (20 - right (update_geometry (Some (20, 20)) centered_node)) <= 1.
Proof.
  refine (center_hint_centers 20 20 centered_node _ _ _ _).
  - lia.
  - lia.
  - reflexivity.
  - reflexivity.
Defined.

(* ===================================================================== *)
(** * Tree edits *)
(* ===================================================================== *)

Lemma pop_child_absent (id : nat) (cs : list Widget) :
  ~ In id (map ident cs) -> pop_child id cs = None.
Proof.
  induction cs as [|c cs IH]; simpl; [reflexivity|].
  intros H. destruct (Nat.eqb_spec (ident c) id) as [E|_].
  - exfalso. apply H. left. exact E.
  - rewrite IH; [reflexivity|]. intros Hin. apply H. right. exact Hin.
Qed.

Lemma pop_child_first (id : nat) (before after : list Widget) (w : Widget) :
  ident w = id -> ~ In id (map ident before) ->
  pop_child id (before ++ w :: after) = Some (w, before ++ after).
Proof.
  intros Hw. induction before as [|c cs IH]; simpl; intros H.
  - rewrite Hw, Nat.eqb_refl. reflexivity.
  - destruct (Nat.eqb_spec (ident c) id) as [E|_].
    + exfalso. apply H. left. exact E.
    + rewrite IH; [reflexivity|]. intros Hin. apply H. right. exact Hin.
Qed.

Lemma with_children_same (self : Widget) :
  with_children self (children self) = self.
Proof. destruct self; reflexivity. Qed.

Lemma with_children_twice (self : Widget) (cs cs' : list Widget) :
  with_children (with_children self cs) cs' = with_children self cs'.
Proof. reflexivity. Qed.

Lemma ident_update_geometry (parent : option Size) (self : Widget) :
  ident (update_geometry parent self) = ident self.
Proof. apply update_geometry_settings. Qed.

(** X6.  Removing a widget that is not among the children raises
    ([list.remove]'s [ValueError]); adding it first and removing it then
    gives back the parent exactly as it was. *)
Theorem remove_widget_after_add (self child : Widget) :
  ~ In (ident child) (map ident (children self)) ->
  remove_widget self (ident child) = None
  /\ remove_widget (add_widget self child) (ident child) = Some self.
Proof.
  intros H. unfold remove_widget. split.
  - rewrite pop_child_absent by exact H. reflexivity.
  - unfold add_widget. cbn [children with_children].
    rewrite (pop_child_first (ident child) (children self) []).
    + rewrite app_nil_r, with_children_twice, with_children_same. reflexivity.
    + apply ident_update_geometry.
    + exact H.
Qed.

(** X7.  [pull_to_front] on a child moves that child to the end of its
    parent's list, where it is drawn last, re-resolved against the parent's
    size; the other children keep their order and are not touched. *)
Theorem pull_to_front_moves_last (parent w : Widget) (before after : list Widget) :
  children parent = before ++ w :: after ->
  ~ In (ident w) (map ident before) ->
  pull_to_front parent (ident w)
  = Some (with_children parent
            (before ++ after ++ [update_geometry (Some (size parent)) w])).
Proof.
  intros Hcs Hfirst. unfold pull_to_front. rewrite Hcs.
  rewrite (pop_child_first (ident w) before after w eq_refl Hfirst).
  unfold add_widget. cbn [children with_children size].
  rewrite <- app_assoc. reflexivity.
Qed.

(** X6 at two default widgets. *)
Lemma remove_widget_after_add_default :
  remove_widget (default_widget 1) 2 = None
  /\ remove_widget (add_widget (default_widget 1) (default_widget 2)) 2
     = Some (default_widget 1).
Proof.
  refine (remove_widget_after_add (default_widget 1) (default_widget 2) _).
  simpl. tauto.
Defined.

(** X7 at a parent with children [2, 3]: widget 2 is pulled to the
    front. *)
Lemma pull_to_front_moves_last_of_two :
  pull_to_front (parent_of 1 false [leaf 2 false; leaf 3 false]) 2
  = Some (parent_of 1 false [leaf 3 false; leaf 2 false]).
Proof.
  refine (pull_to_front_moves_last (parent_of 1 false [leaf 2 false; leaf 3 false])
                                   (leaf 2 false) [] [leaf 3 false] _ _).
  - reflexivity.
  - simpl. tauto.
Defined.

(* ===================================================================== *)
(** * More about dispatch and clipped rendering *)
(* ===================================================================== *)

Lemma any_lazy_skips_disabled (gen gen' : list (bool * Dispatched)) (d : Dispatched) :
  any_lazy (gen ++ (false, d) :: gen') = any_lazy (gen ++ gen').
Proof.
  induction gen as [|[[|] [calls [|]]] gen IH]; simpl; try reflexivity.
  - rewrite IH. reflexivity.
  - exact IH.
  - exact IH.
Qed.

Lemma render_intersection_children (self : Widget) (cs cs' : list Widget) :
  (forall d, flat_map (fun child => if is_visible child && is_enabled child
                                    then render_intersection d child else []) cs
             = flat_map (fun child => if is_visible child && is_enabled child
                                      then render_intersection d child else []) cs') ->
  forall destination,
    render_intersection destination (with_children self cs)
    = render_intersection destination (with_children self cs').
Proof.
  intros H destination. rewrite !render_intersection_unfold.
  destruct destination as [v hz]. cbv zeta.
  change (top (with_children self cs)) with (top (with_children self cs')).
  change (bottom (with_children self cs)) with (bottom (with_children self cs')).
  change (left (with_children self cs)) with (left (with_children self cs')).
  change (right (with_children self cs)) with (right (with_children self cs')).
  destruct (_ || _); [reflexivity|].
  change (height (with_children self cs)) with (height (with_children self cs')).
  change (width (with_children self cs)) with (width (with_children self cs')).
  destruct (clip_axis _ _ _ _) as [[[st sb] dt] db].
  destruct (clip_axis _ _ _ _) as [[[sl sr] dl] dr].
  unfold render_children. cbn [children with_children ident].
  rewrite H. reflexivity.
Qed.

Section MoreDispatch.

Context {Event : Type}.
(** Which handler of a widget is asked: [on_press], [on_click], ...  Each of
    the five dispatchers is [dispatch] at one of them. *)
Variable select : Handlers -> Event -> bool.
Variable event : Event.

#[local] Abbreviation dispatch_event :=
  (dispatch (fun self : Widget => select (handlers self)) event).

Lemma dispatch_children (self : Widget) (cs cs' : list Widget) :
  any_lazy (rev (map (fun widget => (is_enabled widget, dispatch_event widget)) cs))
  = any_lazy (rev (map (fun widget => (is_enabled widget, dispatch_event widget)) cs')) ->
  dispatch_event (with_children self cs) = dispatch_event (with_children self cs').
Proof.
  intros H. rewrite !dispatch_unfold. cbn [children with_children]. rewrite H.
  reflexivity.
Qed.

Lemma dispatch_with_visible (self : Widget) (visible : bool) :
  dispatch_event (with_visible self visible) = dispatch_event self.
Proof. rewrite !dispatch_unfold. reflexivity. Qed.

Lemma dispatch_update_geometry (self : Widget) :
  forall parent, dispatch_event (update_geometry parent self) = dispatch_event self.
Proof.
  induction self as [self IH] using Widget_tree_ind. intros [p|].
  2: { destruct self; reflexivity. }
  rewrite (dispatch_unfold _ _ (update_geometry _ _)), (dispatch_unfold _ _ self).
  destruct (update_geometry_settings (Some p) self)
    as (-> & _ & _ & _ & _ & _ & _ & _ & _ & _ & _ & ->).
  rewrite children_update_geometry.
  destruct (has_size_hint self); [|reflexivity].
  rewrite map_map.
  replace (map (fun x => (is_enabled (update_geometry (Some (resolved_size p self)) x),
                          dispatch_event (update_geometry (Some (resolved_size p self)) x)))
               (children self))
    with (map (fun widget => (is_enabled widget, dispatch_event widget)) (children self));
    [reflexivity|].
  apply map_ext_Forall. eapply Forall_impl; [exact IH|].
  intros c Hc. cbv beta. rewrite Hc.
  destruct (update_geometry_settings (Some (resolved_size p self)) c)
    as (_ & _ & _ & _ & _ & _ & _ & _ & _ & _ & -> & _).
  reflexivity.
Qed.

(** X8.  A disabled child is as good as absent: with it or without it among
    the children, a dispatcher runs the same handlers and returns the same
    answer, and the renderer makes the same [render] calls.  Nothing in the
    child's subtree is asked or painted. *)
Theorem disabled_child_is_absent (self c : Widget) (before after : list Widget)
    (destination : Slices) :
  is_enabled c = false ->
  dispatch_event (with_children self (before ++ c :: after))
  = dispatch_event (with_children self (before ++ after))
  /\ render_intersection destination (with_children self (before ++ c :: after))
     = render_intersection destination (with_children self (before ++ after)).
Proof.
  intros Hc. split.
  - apply dispatch_children.
    rewrite !map_app, !rev_app_distr. cbn [map rev]. rewrite Hc.
    rewrite <- app_assoc. cbn [app]. apply any_lazy_skips_disabled.
  - apply render_intersection_children. intros d.
    rewrite !flat_map_app. cbn [flat_map]. rewrite Hc, andb_false_r. reflexivity.
Qed.

(** X9.  An invisible child is not painted, and neither is anything below
    it, but events are dispatched to it as if it were visible. *)
Theorem invisible_child_still_dispatched (self c : Widget) (before after : list Widget)
    (destination : Slices) :
  render_intersection destination
    (with_children self (before ++ with_visible c false :: after))
  = render_intersection destination (with_children self (before ++ after))
  /\ dispatch_event (with_children self (before ++ with_visible c false :: after))
     = dispatch_event (with_children self (before ++ c :: after)).
Proof.
  split.
  - apply render_intersection_children. intros d.
    rewrite !flat_map_app. reflexivity.
  - apply dispatch_children. rewrite !map_app. cbn [map].
    rewrite dispatch_with_visible. reflexivity.
Qed.

(** X10.  The widget added last is on top: it is painted after all the
    other children, and an event it handles (itself or through a
    descendant) reaches none of the other children and not the parent. *)
Theorem added_widget_is_topmost (self child : Widget) (destination : Slices) :
  is_enabled child = true ->
  snd (dispatch_event child) = true ->
  render_children destination (add_widget self child)
  = render_children destination self
    ++ (if is_visible child
        then render_intersection destination
               (update_geometry (Some (size self)) child)
        else [])
  /\ dispatch_event (add_widget self child) = dispatch_event child.
Proof.
  intros Hen Hhandled. split.
  - unfold render_children, add_widget. cbn [children with_children].
    rewrite flat_map_app. cbn [flat_map]. rewrite app_nil_r.
    destruct (update_geometry_settings (Some (size self)) child)
      as (_ & _ & _ & _ & _ & _ & _ & _ & _ & -> & -> & _).
    rewrite Hen, andb_true_r. reflexivity.
  - rewrite dispatch_unfold. unfold add_widget. cbn [children with_children].
    rewrite map_app, rev_app_distr. cbn [map rev app any_lazy].
    rewrite dispatch_update_geometry.
    destruct (update_geometry_settings (Some (size self)) child)
      as (_ & _ & _ & _ & _ & _ & _ & _ & _ & _ & -> & _).
    rewrite Hen. destruct (dispatch_event child) as [calls handled].
    simpl in Hhandled. subst handled. reflexivity.
Qed.

End MoreDispatch.

(** X8 at a key press on a parent whose one child is disabled. *)
Lemma disabled_child_is_absent_key_press :
  dispatch_press (KeyPress 0) (parent_of 1 false [disabled_node])
  = dispatch_press (KeyPress 0) (parent_of 1 false [])
  /\ render_intersection (mkSlice 0 5, mkSlice 0 5) (parent_of 1 false [disabled_node])
     = render_intersection (mkSlice 0 5, mkSlice 0 5) (parent_of 1 false []).
Proof.
  refine (disabled_child_is_absent on_press (KeyPress 0) (leaf 1 false) disabled_node
                                   [] [] (mkSlice 0 5, mkSlice 0 5) _).
  reflexivity.
Defined.

(** X10 at a widget that accepts key presses, added above a sibling. *)
Lemma added_widget_is_topmost_key_press :
  render_children (mkSlice 0 5, mkSlice 0 5)
                  (add_widget (parent_of 1 false [leaf 3 false]) (leaf 2 true))
  = render_children (mkSlice 0 5, mkSlice 0 5) (parent_of 1 false [leaf 3 false])
    ++ render_intersection (mkSlice 0 5, mkSlice 0 5) (leaf 2 true)
  /\ dispatch_press (KeyPress 0)
                    (add_widget (parent_of 1 false [leaf 3 false]) (leaf 2 true))
     = ([2%nat], true).
Proof.
  refine (added_widget_is_topmost on_press (KeyPress 0)
                                  (parent_of 1 false [leaf 3 false]) (leaf 2 true)
                                  (mkSlice 0 5, mkSlice 0 5) _ _).
  - reflexivity.
  - reflexivity.
Defined.

Lemma clip_axis_intersection (w0 own ext : Z) :
  clip_axis w0 (w0 + own) ext own
  = (Z.max 0 w0 - w0, Z.min ext (w0 + own) - w0, Z.max 0 w0, Z.min ext (w0 + own)).
Proof.
  unfold clip_axis.
  destruct (Z.ltb_spec w0 0), (Z.geb_spec (w0 + own) ext);
    repeat f_equal; lia.
Qed.

(** The rows (or columns) of a widget that fall inside a destination, in
    the destination's coordinates: from [Z.max 0 w0] to
    [Z.min ext (w0 + own)], where the widget starts at [w0] and is [own]
    long and the destination is [ext] long. *)
Lemma render_intersection_clip (destination : Slices) (self : Widget) :
  let t := start (fst destination) in
  let h := stop (fst destination) - t in
  let l := start (snd destination) in
  let w := stop (snd destination) - l in
  let wt := top self - t in
  let wl := left self - l in
  render_intersection destination self = []
  \/ exists below,
      render_intersection destination self
      = mkRenderCall (ident self)
          (mkSlice (Z.max 0 wt) (Z.min h (wt + height self)),
           mkSlice (Z.max 0 wl) (Z.min w (wl + width self)))
          (mkSlice (Z.max 0 wt - wt) (Z.min h (wt + height self) - wt),
           mkSlice (Z.max 0 wl - wl) (Z.min w (wl + width self) - wl))
        :: below.
Proof.
  destruct destination as [v hz]. cbn [fst snd]. cbv zeta.
  rewrite render_intersection_unfold. cbv zeta.
  destruct (_ || _); [left; reflexivity|right].
  replace (bottom self - start v) with (top self - start v + height self)
    by (unfold bottom; lia).
  replace (right self - start hz) with (left self - start hz + width self)
    by (unfold right; lia).
  rewrite !clip_axis_intersection. eexists. reflexivity.
Qed.

(** X11.  What [render_intersection] hands to [render], when it does not
    prune the widget, is the intersection of the widget with the
    destination: the destination rows run from the later of the two tops to
    the earlier of the two bottoms, likewise the columns, and the source
    slices are the same rows and columns counted from the widget's own
    corner. *)
Theorem render_intersection_is_intersection (destination : Slices) (self : Widget) :
  let t := start (fst destination) in
  let b := stop (fst destination) in
  let l := start (snd destination) in
  let r := stop (snd destination) in
  match render_intersection destination self with
  | [] => True
  | call :: _ =>
      painter call = ident self
      /\ start (fst (dest_slice call)) + t = Z.max t (top self)
      /\ stop (fst (dest_slice call)) + t = Z.min b (bottom self)
      /\ start (snd (dest_slice call)) + l = Z.max l (left self)
      /\ stop (snd (dest_slice call)) + l = Z.min r (right self)
      /\ start (fst (source call)) + top self = Z.max t (top self)
      /\ stop (fst (source call)) + top self = Z.min b (bottom self)
      /\ start (snd (source call)) + left self = Z.max l (left self)
      /\ stop (snd (source call)) + left self = Z.min r (right self)
  end.
Proof.
  cbv zeta. destruct (render_intersection_clip destination self) as [->|[below ->]];
    [exact I|].
  cbn [painter dest_slice source fst snd start stop]. unfold bottom, right.
  repeat split; lia.
Qed.

Lemma render_calls_same_shape (self : Widget) :
  forall destination, Forall same_shape (render_intersection destination self).
Proof.
  induction self as [self IH] using Widget_tree_ind. intros destination.
  destruct (render_intersection_clip destination self) as [E|[below E]].
  - rewrite E. constructor.
  - pose proof E as E'. rewrite render_intersection_unfold in E'.
    destruct destination as [v hz]. cbv zeta in E'.
    destruct (_ || _); [discriminate|].
    destruct (clip_axis _ _ _ _) as [[[st sb] dt] db].
    destruct (clip_axis _ _ _ _) as [[[sl sr] dl] dr].
    injection E' as _ _ _ _ _ _ _ _ Hbelow.
    rewrite E. constructor.
    + unfold same_shape. cbn [dest_slice source fst snd start stop]. lia.
    + rewrite <- Hbelow. unfold render_children.
      apply Forall_flat_map. eapply Forall_impl; [exact IH|].
      intros c Hc. cbv beta. destruct (_ && _); [apply Hc|constructor].
Qed.

(** X12.  In every [render] call the renderer makes, anywhere in the tree,
    the part of the views handed over and the part of the widget to show
    have the same number of rows and the same number of columns. *)
Theorem render_calls_match_in_shape (destination : Slices) (self : Widget) :
  Forall same_shape (render_intersection destination self).
Proof. apply render_calls_same_shape. Qed.

Lemma painters_in_preorder (self : Widget) :
  forall destination,
    sublist (map painter (render_intersection destination self))
            (map ident (self :: walk self)).
Proof.
  induction self as [self IH] using Widget_tree_ind. intros destination.
  rewrite render_intersection_unfold. destruct destination as [v hz]. cbv zeta.
  destruct (_ || _); [apply sublist_nil_l|].
  destruct (clip_axis _ _ _ _) as [[[st sb] dt] db].
  destruct (clip_axis _ _ _ _) as [[[sl sr] dl] dr].
  cbn [map painter]. apply sublist_skip.
  unfold render_children. rewrite walk_unfold.
  induction (children self) as [|c cs IHcs]; [constructor|].
  inversion IH as [|? ? Hc Hcs]; subst.
  cbn [flat_map]. rewrite !map_app. apply sublist_app.
  - destruct (_ && _); [apply Hc|apply sublist_nil_l].
  - apply IHcs. exact Hcs.
Qed.

(** X13.  The renderer paints in preorder, bottom to top: the widgets it
    calls [render] on, in the order it does, are the widget and its
    descendants in the order [walk] lists them, with some left out, so a
    parent is painted before what is below it, a child after the children
    before it, and no widget twice. *)
Theorem render_order_is_walk_order (destination : Slices) (self : Widget) :
  sublist (map painter (render_intersection destination self))
          (map ident (self :: walk self)).
Proof. apply painters_in_preorder. Qed.

(* ===================================================================== *)
(** * More about subscriptions *)
(* ===================================================================== *)

(** X14.  After [subscribe], [unsubscribe] by the same widget from the same
    property of the same source returns the action that was subscribed and
    removes it: unsubscribing once more returns [None], without raising. *)
Theorem unsubscribe_returns_subscribed
    (reg reg1 : gmap string (gmap nat (gmap nat Subscriptions.Action)))
    (self source : nat) (attr : string) (action : Subscriptions.Action) :
  Subscriptions.subscribe reg self source attr action = Ok reg1 ->
  exists reg2 reg3,
    Subscriptions.unsubscribe reg1 self source attr = Ok (Some action, reg2)
    /\ Subscriptions.unsubscribe reg2 self source attr = Ok (None, reg3).
Proof.
  unfold Subscriptions.subscribe, Subscriptions.fset_instances.
  destruct (reg !! attr) as [instances|] eqn:Hattr; simpl; [|discriminate].
  intros [= <-].
  unfold Subscriptions.unsubscribe, Subscriptions.fset_instances.
  rewrite lookup_insert_eq. simpl. rewrite !lookup_insert_eq.
  eexists _, _. split; [reflexivity|].
  rewrite lookup_insert_eq. simpl. rewrite lookup_insert_eq, lookup_delete_eq.
  reflexivity.
Qed.

Lemma subscription_insert
    (reg : gmap string (gmap nat (gmap nat Subscriptions.Action)))
    (instances : gmap nat (gmap nat Subscriptions.Action))
    (subscribers subscribers' : gmap nat Subscriptions.Action)
    (self source other source' : nat) (attr attr' : string) :
  reg !! attr = Some instances ->
  instances !! source = Some subscribers \/
  (instances !! source = None /\ subscribers = ∅) ->
  (forall k, k <> self -> subscribers' !! k = subscribers !! k) ->
  (other, source', attr') <> (self, source, attr) ->
  subscription (<[attr := <[source := subscribers']> instances]> reg) other source' attr'
  = subscription reg other source' attr'.
Proof.
  intros Hattr Hsrc Hsame Hne. unfold subscription.
  destruct (decide (attr' = attr)) as [->|Ha].
  - rewrite lookup_insert_eq, Hattr.
    destruct (decide (source' = source)) as [->|Hs].
    + rewrite lookup_insert_eq.
      assert (other <> self) by congruence.
      rewrite Hsame by assumption.
      destruct Hsrc as [->|[-> ->]]; [reflexivity|apply lookup_empty].
    + rewrite lookup_insert_ne by congruence. reflexivity.
  - rewrite lookup_insert_ne by congruence. reflexivity.
Qed.

(** X15.  Subscribing or unsubscribing one widget to one property of one
    source changes no other subscription: what any other widget has
    registered, and what the widget itself has registered for another
    source or another property, stays as it was. *)
Theorem subscriptions_do_not_interfere
    (reg : gmap string (gmap nat (gmap nat Subscriptions.Action)))
    (self source other source' : nat) (attr attr' : string)
    (action : Subscriptions.Action) :
  (other, source', attr') <> (self, source, attr) ->
  match Subscriptions.subscribe reg self source attr action with
  | Ok reg' => subscription reg' other source' attr' = subscription reg other source' attr'
  | Raise _ => True
  end
  /\ match Subscriptions.unsubscribe reg self source attr with
     | Ok (_, reg') =>
         subscription reg' other source' attr' = subscription reg other source' attr'
     | Raise _ => True
     end.
Proof.
  intros Hne.
  unfold Subscriptions.subscribe, Subscriptions.unsubscribe, Subscriptions.fset_instances.
  destruct (reg !! attr) as [instances|] eqn:Hattr; simpl; [|auto].
  split.
  - destruct (instances !! source) as [subscribers|] eqn:Hsrc; simpl.
    + eapply subscription_insert; eauto.
      intros k Hk. apply lookup_insert_ne. congruence.
    + eapply (subscription_insert _ _ ∅); eauto.
      intros k Hk. apply lookup_insert_ne. congruence.
  - destruct (instances !! source) as [subscribers|] eqn:Hsrc; simpl; [|exact I].
    eapply subscription_insert; eauto.
    intros k Hk. apply lookup_delete_ne. congruence.
Qed.

(** X14 at the first subscription of a fresh registry. *)
Lemma unsubscribe_returns_subscribed_once :
  exists reg2 reg3,
    Subscriptions.unsubscribe one_subscriber 1 2 "size" = Ok (Some 7%nat, reg2)
    /\ Subscriptions.unsubscribe reg2 1 2 "size" = Ok (None, reg3).
Proof.
  refine (unsubscribe_returns_subscribed Subscriptions.fresh one_subscriber
                                         1 2 "size" 7%nat _).
  reflexivity.
Defined.

(** X15 at widget 1, subscribed to the size of widget 2, and widget 3,
    which is not. *)
Lemma subscriptions_do_not_interfere_third_widget :
  match Subscriptions.subscribe one_subscriber 1 2 "size" 8%nat with
  | Ok reg' => subscription reg' 3 2 "size" = subscription one_subscriber 3 2 "size"
  | Raise _ => True
  end
  /\ match Subscriptions.unsubscribe one_subscriber 1 2 "size" with
     | Ok (_, reg') =>
         subscription reg' 3 2 "size" = subscription one_subscriber 3 2 "size"
     | Raise _ => True
     end.
Proof.
  refine (subscriptions_do_not_interfere one_subscriber 1 2 3 2 "size" "size" 8%nat _).
  intros H. discriminate H.
Defined.

(* ===================================================================== *)
(** * More about tweens *)
(* ===================================================================== *)





(* ===================================================================== *)
(** * More about the compositor *)
(* ===================================================================== *)

Lemma fold_render_rect_opaque (self : Graphics.Gadget) (rects : list Graphics.Rect)
    (screen : Graphics.Screen) (p : Point) :
  Graphics.is_transparent self = false ->
  fold_left (Graphics.render_rect self) rects screen p =
  if existsb (fun r => Graphics.in_rect r p) rects
  then Graphics.render_cell_opaque self p (screen p)
  else screen p.
Proof.
  intros Ht. revert screen.
  induction rects as [|r rects IH]; intros screen; simpl; [reflexivity|].
  rewrite IH. unfold Graphics.render_rect at 1 2. rewrite Ht.
  destruct (Graphics.in_rect r p); simpl; [|reflexivity].
  destruct (existsb _ rects); reflexivity.
Qed.

(** X18.  In non-transparent mode every covered cell is overwritten: its
    glyph becomes the half block, its foreground the color of the even
    texture row behind it and its background the color of the odd row,
    whatever the cell held, whatever the texels' alpha and the gadget's
    alpha. *)
Theorem opaque_render_overwrites (self : Graphics.Gadget) (screen : Graphics.Screen)
    (p : Point) :
  Graphics.is_transparent self = false ->
  Graphics.covered self p = true ->
  Graphics.render self screen p
  = Graphics.mkCell Graphics.HALF_BLOCK
      (fst (Graphics.even_texel self p)) (fst (Graphics.odd_texel self p)).
Proof.
  intros Ht Hcov. unfold Graphics.render, Graphics.covered in *.
  rewrite fold_render_rect_opaque by exact Ht. rewrite Hcov. reflexivity.
Qed.

(** X19.  In either mode [render] touches the cells of the gadget's region
    only: a cell that no rectangle of the region covers keeps its glyph and
    both colors. *)
Theorem render_leaves_uncovered_cells (self : Graphics.Gadget)
    (screen : Graphics.Screen) (p : Point) :
  Graphics.covered self p = false ->
  Graphics.render self screen p = screen p.
Proof. apply render_uncovered. Qed.

Lemma blend_channel_clear_texel (texel existing : Z) (na : float) :
  is_uint8 existing ->
  Graphics.blend_channel texel existing 0 na = existing.
Proof.
  intros H. unfold Graphics.blend_channel, Graphics.to_uint8.
  replace ((Num.of_int texel - Num.of_int existing) * Num.of_int 0 * na
           + Num.of_int existing)%Qc with (Num.of_int existing).
  - rewrite py_int_of_int. apply Z.mod_small. exact H.
  - fold Num.zero. rewrite zero_is_0. ring.
Qed.

Lemma blend_clear_texel (rgb existing : Graphics.RGB) (na : float) :
  uint8_rgb existing -> Graphics.blend (rgb, 0) existing na = existing.
Proof.
  destruct rgb as [[r g] b], existing as [[er eg] eb].
  intros (Hr & Hg & Hb); simpl in *.
  rewrite !blend_channel_clear_texel by assumption. reflexivity.
Qed.

Lemma fold_render_rect_clear_texels (self : Graphics.Gadget) (rects : list Graphics.Rect)
    (screen : Graphics.Screen) (p : Point) :
  Graphics.is_transparent self = true ->
  snd (Graphics.even_texel self p) = 0 ->
  snd (Graphics.odd_texel self p) = 0 ->
  uint8_cell (screen p) ->
  fold_left (Graphics.render_rect self) rects screen p =
  if existsb (fun r => Graphics.in_rect r p) rects then flattened (screen p) else screen p.
Proof.
  intros Ht He Ho. revert screen.
  assert (Hcell : forall c, uint8_cell c ->
                            Graphics.render_cell_transparent self p c = flattened c).
  { intros c [Hfg Hbg]. unfold Graphics.render_cell_transparent, flattened, flat_base.
    destruct (Graphics.even_texel self p) as [ergb ea],
             (Graphics.odd_texel self p) as [orgb oa].
    simpl in He, Ho. subst ea oa.
    rewrite !blend_clear_texel; [reflexivity | assumption |].
    destruct (_ =? _); assumption. }
  induction rects as [|r rects IH]; intros screen Hc; simpl; [reflexivity|].
  assert (Hstep : Graphics.render_rect self screen r p =
                  if Graphics.in_rect r p then flattened (screen p) else screen p).
  { unfold Graphics.render_rect. rewrite Ht.
    destruct (Graphics.in_rect r p); [|reflexivity]. apply Hcell. exact Hc. }
  rewrite IH.
  - rewrite Hstep. destruct (Graphics.in_rect r p); simpl; [|reflexivity].
    rewrite flattened_twice. destruct (existsb _ rects); reflexivity.
  - rewrite Hstep. destruct (Graphics.in_rect r p); [apply flattened_uint8|]; exact Hc.
Qed.

(** X20.  In transparent mode a covered cell whose two texels have alpha 0
    takes no color from the texture, whatever the gadget's alpha: its
    background stays, its foreground stays if it already shows the half
    block and becomes its background otherwise, and it shows the half block
    afterwards. *)
Theorem clear_texels_add_nothing (self : Graphics.Gadget) (screen : Graphics.Screen)
    (p : Point) :
  Graphics.is_transparent self = true ->
  Graphics.covered self p = true ->
  snd (Graphics.even_texel self p) = 0 ->
  snd (Graphics.odd_texel self p) = 0 ->
  uint8_cell (screen p) ->
  Graphics.render self screen p = flattened (screen p).
Proof.
  intros Ht Hcov He Ho Hc. unfold Graphics.render, Graphics.covered in *.
  rewrite fold_render_rect_clear_texels by assumption.
  rewrite Hcov. reflexivity.
Qed.

(** X18 at an opaque gadget over the letter A. *)
Lemma opaque_render_overwrites_letter :
  Graphics.render opaque_gadget letter_A (0, 0)
  = Graphics.mkCell Graphics.HALF_BLOCK (255, 0, 0) (255, 0, 0).
Proof.
  refine (opaque_render_overwrites opaque_gadget letter_A (0, 0) _ _).
  - reflexivity.
  - reflexivity.
Defined.

(** X19 at a cell beside the gadget. *)
Lemma render_leaves_uncovered_cells_beside :
  Graphics.render opaque_gadget letter_A (0, 1) = letter_A (0, 1).
Proof.
  refine (render_leaves_uncovered_cells opaque_gadget letter_A (0, 1) _).
  reflexivity.
Defined.

(** X20 at a gadget of clear texels over the letter A. *)
Lemma clear_texels_add_nothing_letter :
  Graphics.render clear_gadget letter_A (0, 0) = flattened (letter_A (0, 0)).
Proof.
  refine (clear_texels_add_nothing clear_gadget letter_A (0, 0) _ _ _ _ _).
  - reflexivity.
  - reflexivity.
  - reflexivity.
  - reflexivity.
  - unfold uint8_cell, uint8_rgb, is_uint8; simpl. lia.
Defined.

(* ===================================================================== *)
(** * Text animation *)
(* ===================================================================== *)

Lemma advance_in_range (self : TextAnimation.Animation) :
  TextAnimation.in_range self ->
  TextAnimation.in_range (fst (TextAnimation.advance self))
  /\ TextAnimation.n_frames (fst (TextAnimation.advance self))
     = TextAnimation.n_frames self.
Proof.
  unfold TextAnimation.in_range, TextAnimation.advance, TextAnimation.len.
  intros H. destruct (TextAnimation.reverse self).
  - destruct (Z.ltb_spec (TextAnimation._i self - 1) 0); simpl; split; auto; lia.
  - destruct (Z.eqb_spec (TextAnimation._i self + 1) (Z.of_nat (TextAnimation.n_frames self)));
      simpl; split; auto; lia.
Qed.

Lemma play_animation_in_range (sleeps : nat) :
  forall self,
    TextAnimation.in_range self ->
    Forall (fun i => 0 <= i < TextAnimation.len self)
           (fst (fst (TextAnimation.play_animation sleeps self)))
    /\ TextAnimation.in_range (snd (fst (TextAnimation.play_animation sleeps self)))
    /\ TextAnimation.n_frames (snd (fst (TextAnimation.play_animation sleeps self)))
       = TextAnimation.n_frames self.
Proof.
  induction sleeps as [|sleeps IH]; intros self Hin; simpl.
  - destruct (_ =? _)%nat; simpl; auto.
  - destruct (_ =? _)%nat; simpl; [auto|].
    destruct (advance_in_range self Hin) as [Hin' Hn].
    destruct (TextAnimation.advance self) as [self' returned]. simpl in Hin', Hn.
    destruct returned; simpl.
    + split; [constructor; [exact Hin|constructor]|].
      split; assumption.
    + destruct (IH self' Hin') as (Hshown & Hlast & Hlen).
      destruct (TextAnimation.play_animation sleeps self') as [[shown last] r].
      simpl in *. split; [|split; [exact Hlast|congruence]].
      constructor; [exact Hin|].
      unfold TextAnimation.len in *. rewrite <- Hn. exact Hshown.
Qed.

(** X21.  The frame index always names a frame.  From an index within the
    frames, [play], [stop] and any number of steps of the playing coroutine
    leave the index within the frames, and every frame the coroutine shows,
    looping or not, forward or in reverse, is one of the animation's: no
    lookup of [frames] or [frame_durations] is out of range. *)
Theorem frame_index_stays_in_range (self : TextAnimation.Animation) (sleeps : nat) :
  TextAnimation.in_range self ->
  TextAnimation.in_range (TextAnimation.play self)
  /\ TextAnimation.in_range (TextAnimation.stop self)
  /\ Forall (fun i => 0 <= i < TextAnimation.len self)
            (fst (fst (TextAnimation.play_animation sleeps self)))
  /\ TextAnimation.in_range (snd (fst (TextAnimation.play_animation sleeps self))).
Proof.
  intros Hin. split; [|split].
  - unfold TextAnimation.play, TextAnimation.in_range, TextAnimation.len in *.
    destruct (_ && _); simpl; [lia|]. destruct (_ && _); simpl; lia.
  - unfold TextAnimation.stop, TextAnimation.first_index, TextAnimation.in_range,
      TextAnimation.len in *.
    destruct (TextAnimation.reverse self); simpl; lia.
  - destruct (play_animation_in_range sleeps self Hin) as (H1 & H2 & _). auto.
Qed.

Lemma with_i_same (self : TextAnimation.Animation) :
  TextAnimation.with_i self (TextAnimation._i self) = self.
Proof. destruct self; reflexivity. Qed.

Lemma advance_looping (self : TextAnimation.Animation) :
  TextAnimation.loop self = true -> TextAnimation.in_range self ->
  TextAnimation.advance self = (TextAnimation.with_i self (frame_after self 1), false).
Proof.
  unfold TextAnimation.in_range, TextAnimation.advance, frame_after.
  intros Hloop Hin. rewrite Hloop. simpl negb.
  set (n := TextAnimation.len self) in *.
  destruct (TextAnimation.reverse self).
  - destruct (Z.ltb_spec (TextAnimation._i self - 1) 0).
    + replace (TextAnimation._i self - Z.of_nat 1) with (-1 + 0) by lia.
      replace (-1 + 0) with (n - 1 + (-1) * n) by lia.
      rewrite Z.mod_add by lia. rewrite Z.mod_small by lia. reflexivity.
    + rewrite Z.mod_small by lia. reflexivity.
  - destruct (Z.eqb_spec (TextAnimation._i self + 1) n) as [E|E].
    + replace (TextAnimation._i self + Z.of_nat 1) with n by lia.
      rewrite Z.mod_same by lia. reflexivity.
    + rewrite Z.mod_small by lia. reflexivity.
Qed.

Lemma frame_after_step (self : TextAnimation.Animation) (k : nat) :
  0 < TextAnimation.len self ->
  frame_after (TextAnimation.with_i self (frame_after self 1)) k = frame_after self (S k).
Proof.
  intros Hn. unfold frame_after. cbn [TextAnimation.reverse TextAnimation.with_i
    TextAnimation._i].
  change (TextAnimation.len (TextAnimation.with_i self _)) with (TextAnimation.len self).
  destruct (TextAnimation.reverse self).
  - rewrite Zminus_mod_idemp_l. f_equal. lia.
  - rewrite Zplus_mod_idemp_l. f_equal. lia.
Qed.

Lemma play_animation_looping (sleeps : nat) :
  forall self,
    TextAnimation.loop self = true -> TextAnimation.in_range self ->
    TextAnimation.play_animation sleeps self
    = (map (frame_after self) (seq 0 sleeps),
       TextAnimation.with_i self (frame_after self sleeps), false).
Proof.
  induction sleeps as [|sleeps IH]; intros self Hloop Hin.
  - assert (Hn : (TextAnimation.n_frames self =? 0)%nat = false).
    { apply Nat.eqb_neq. unfold TextAnimation.in_range, TextAnimation.len in Hin. lia. }
    simpl. rewrite Hn. unfold frame_after.
    unfold TextAnimation.in_range in Hin.
    rewrite Z.sub_0_r, Z.add_0_r, Z.mod_small by lia.
    destruct (TextAnimation.reverse self); rewrite with_i_same; reflexivity.
  - assert (Hn : (TextAnimation.n_frames self =? 0)%nat = false).
    { apply Nat.eqb_neq. unfold TextAnimation.in_range, TextAnimation.len in Hin. lia. }
    cbn [TextAnimation.play_animation]. rewrite Hn.
    rewrite (advance_looping self Hloop Hin).
    pose proof (advance_in_range self Hin) as [Hin' _].
    rewrite (advance_looping self Hloop Hin) in Hin'. simpl in Hin'.
    rewrite (IH (TextAnimation.with_i self (frame_after self 1)) Hloop Hin').
    assert (Hlen : 0 < TextAnimation.len self)
      by (unfold TextAnimation.in_range in Hin; lia).
    rewrite frame_after_step by exact Hlen.
    assert (H0 : frame_after self 0 = TextAnimation._i self).
    { unfold frame_after. unfold TextAnimation.in_range in Hin.
      rewrite Z.sub_0_r, Z.add_0_r, Z.mod_small by lia.
      destruct (TextAnimation.reverse self); reflexivity. }
    cbn [seq map]. rewrite H0, <- seq_shift, map_map.
    rewrite (map_ext _ _ (fun k => frame_after_step self k Hlen)).
    reflexivity.
Qed.

(** X22.  A looping animation never returns, and the frame it shows during
    its [k]-th sleep is [k] frames on from where it started, modulo the
    number of frames (counted down when it plays in reverse); after as many
    sleeps as there are frames it is back exactly where it started. *)
Theorem looping_animation_cycles (self : TextAnimation.Animation) (sleeps : nat) :
  TextAnimation.loop self = true ->
  TextAnimation.in_range self ->
  TextAnimation.play_animation sleeps self
  = (map (frame_after self) (seq 0 sleeps),
     TextAnimation.with_i self (frame_after self sleeps), false)
  /\ snd (fst (TextAnimation.play_animation (TextAnimation.n_frames self) self)) = self.
Proof.
  intros Hloop Hin. split; [apply play_animation_looping; assumption|].
  rewrite play_animation_looping by assumption. cbn [fst snd].
  etransitivity; [|apply with_i_same]. f_equal.
  unfold frame_after, TextAnimation.in_range, TextAnimation.len in *.
  set (n := Z.of_nat (TextAnimation.n_frames self)) in *.
  destruct (TextAnimation.reverse self).
  - replace (TextAnimation._i self - n) with (TextAnimation._i self + (-1) * n) by lia.
    rewrite Z.mod_add by lia. apply Z.mod_small. lia.
  - replace (TextAnimation._i self + n) with (TextAnimation._i self + 1 * n) by lia.
    rewrite Z.mod_add by lia. apply Z.mod_small. lia.
Qed.

(** X21 at a spinner of three frames, for five sleeps. *)
Lemma frame_index_stays_in_range_spinner :
  TextAnimation.in_range (TextAnimation.play spinner)
  /\ TextAnimation.in_range (TextAnimation.stop spinner)
  /\ Forall (fun i => 0 <= i < TextAnimation.len spinner)
            (fst (fst (TextAnimation.play_animation 5 spinner)))
  /\ TextAnimation.in_range (snd (fst (TextAnimation.play_animation 5 spinner))).
Proof.
  refine (frame_index_stays_in_range spinner 5 _).
  unfold TextAnimation.in_range, TextAnimation.len. simpl. lia.
Defined.

(** X22 at the spinner: four sleeps show frames 0, 1, 2, 0 and leave the
    index at 1. *)
Lemma looping_animation_cycles_spinner :
  TextAnimation.play_animation 4 spinner
  = ([0; 1; 2; 0], TextAnimation.with_i spinner 1, false)
  /\ snd (fst (TextAnimation.play_animation 3 spinner)) = spinner.
Proof.
  refine (looping_animation_cycles spinner 4 _ _).
  - reflexivity.
  - unfold TextAnimation.in_range, TextAnimation.len. simpl. lia.
Defined.

Lemma play_animation_to_the_end (m : nat) :
  forall self sleeps,
    TextAnimation.loop self = false ->
    TextAnimation.in_range self ->
    frames_left self = S m ->
    (S m <= sleeps)%nat ->
    TextAnimation.play_animation sleeps self
    = (map (frame_on self) (seq 0 (S m)), TextAnimation.stop self, true).
Proof.
  induction m as [|m IH]; intros self sleeps Hloop Hin Hleft Hsleeps;
    (destruct sleeps as [|sleeps]; [lia|]);
    assert (Hn : (TextAnimation.n_frames self =? 0)%nat = false)
      by (apply Nat.eqb_neq; unfold TextAnimation.in_range, TextAnimation.len in Hin; lia);
    cbn [TextAnimation.play_animation]; rewrite Hn;
    unfold TextAnimation.advance, TextAnimation.stop, TextAnimation.first_index;
    unfold frames_left in Hleft; unfold TextAnimation.in_range in Hin;
    rewrite Hloop; simpl negb.
  - unfold frame_on. cbn [seq map].
    destruct (TextAnimation.reverse self) eqn:Hrev; rewrite ?Hrev in Hleft.
    + destruct (Z.ltb_spec (TextAnimation._i self - 1) 0); [|lia].
      rewrite Z.sub_0_r. reflexivity.
    + destruct (Z.eqb_spec (TextAnimation._i self + 1) (TextAnimation.len self)); [|lia].
      rewrite Z.add_0_r. reflexivity.
  - destruct (TextAnimation.reverse self) eqn:Hrev; rewrite ?Hrev in Hleft.
    + destruct (Z.ltb_spec (TextAnimation._i self - 1) 0); [lia|].
      rewrite (IH (TextAnimation.with_i self (TextAnimation._i self - 1)) sleeps).
      * assert (Hk : forall k,
                   frame_on (TextAnimation.with_i self (TextAnimation._i self - 1)) k
                   = frame_on self (S k)).
        { intros k. unfold frame_on.
          cbn [TextAnimation.reverse TextAnimation.with_i TextAnimation._i].
          rewrite Hrev. lia. }
        assert (H0 : frame_on self 0 = TextAnimation._i self).
        { unfold frame_on. rewrite Hrev. lia. }
        rewrite (map_ext _ _ Hk).
        change (seq 0 (S (S m))) with (0%nat :: seq 1 (S m)).
        rewrite <- (seq_shift (S m) 0). cbn [map]. rewrite H0, map_map.
        unfold TextAnimation.stop, TextAnimation.first_index.
        cbn [TextAnimation.reverse TextAnimation.with_i]. rewrite Hrev.
        reflexivity.
      * exact Hloop.
      * unfold TextAnimation.in_range, TextAnimation.len in *.
        cbn [TextAnimation._i TextAnimation.with_i TextAnimation.n_frames]. lia.
      * unfold frames_left, TextAnimation.len in *.
        cbn [TextAnimation._i TextAnimation.with_i TextAnimation.n_frames TextAnimation.reverse].
        rewrite Hrev. lia.
      * lia.
    + destruct (Z.eqb_spec (TextAnimation._i self + 1) (TextAnimation.len self)); [lia|].
      rewrite (IH (TextAnimation.with_i self (TextAnimation._i self + 1)) sleeps).
      * assert (Hk : forall k,
                   frame_on (TextAnimation.with_i self (TextAnimation._i self + 1)) k
                   = frame_on self (S k)).
        { intros k. unfold frame_on.
          cbn [TextAnimation.reverse TextAnimation.with_i TextAnimation._i].
          rewrite Hrev. lia. }
        assert (H0 : frame_on self 0 = TextAnimation._i self).
        { unfold frame_on. rewrite Hrev. lia. }
        rewrite (map_ext _ _ Hk).
        change (seq 0 (S (S m))) with (0%nat :: seq 1 (S m)).
        rewrite <- (seq_shift (S m) 0). cbn [map]. rewrite H0, map_map.
        unfold TextAnimation.stop, TextAnimation.first_index.
        cbn [TextAnimation.reverse TextAnimation.with_i]. rewrite Hrev.
        reflexivity.
      * exact Hloop.
      * unfold TextAnimation.in_range, TextAnimation.len in *.
        cbn [TextAnimation._i TextAnimation.with_i TextAnimation.n_frames]. lia.
      * unfold frames_left, TextAnimation.len in *.
        cbn [TextAnimation._i TextAnimation.with_i TextAnimation.n_frames TextAnimation.reverse].
        rewrite Hrev. lia.
      * lia.
Qed.

(** X23.  An animation that does not loop comes to an end: given at least
    as many sleeps as there are frames from the current one to the end, the
    coroutine returns, having shown exactly those frames, each once and in
    playing order, and it leaves the index where [stop] would put it (the
    first frame, or the last one in reverse), not on the frame shown last. *)
Theorem animation_plays_to_the_end (self : TextAnimation.Animation) (sleeps : nat) :
  TextAnimation.loop self = false ->
  TextAnimation.in_range self ->
  (frames_left self <= sleeps)%nat ->
  TextAnimation.play_animation sleeps self
  = (map (frame_on self) (seq 0 (frames_left self)), TextAnimation.stop self, true).
Proof.
  intros Hloop Hin Hsleeps.
  destruct (frames_left self) as [|m] eqn:Hleft.
  - exfalso. unfold frames_left, TextAnimation.in_range in *.
    destruct (TextAnimation.reverse self); lia.
  - apply play_animation_to_the_end; assumption.
Qed.

(** X23 at the countdown: frames 2, 1, 0, then the index is back at 2. *)
Lemma animation_plays_to_the_end_countdown :
  TextAnimation.play_animation 5 countdown = ([2; 1; 0], countdown, true).
Proof.
  refine (animation_plays_to_the_end countdown 5 _ _ _).
  - reflexivity.
  - unfold TextAnimation.in_range, TextAnimation.len. simpl. lia.
  - unfold frames_left. simpl. lia.
Defined.

(* ===================================================================== *)
(** * The application's loops: proofs *)
(* ===================================================================== *)

(** X24.  The exit key ends the batch: the keys read before it are passed,
    in order, each to the dispatcher of its kind, [exit] is called, and the
    keys that follow it in the same batch reach no dispatcher. *)
Theorem keys_after_exit_key_are_dropped (exit_key : KeyPressEvent)
    (before after : list App.Input) :
  Forall (fun key => App.is_exit_key (Some exit_key) key = false) before ->
  App.read_from_input (Some exit_key) (before ++ App.Pressed exit_key :: after)
  = (map App.route before, true).
Proof.
  intros Hbefore. induction Hbefore as [|key before Hkey _ IH].
  - cbn [app App.read_from_input map].
    destruct exit_key as [c]. cbn [App.is_exit_key].
    rewrite Nat.eqb_refl. reflexivity.
  - cbn [app App.read_from_input map]. rewrite Hkey, IH. reflexivity.
Qed.

Lemma size_eqb_eq (a b : Size) : App.size_eqb a b = true <-> a = b.
Proof.
  destruct a as [h w], b as [h' w']. unfold App.size_eqb. cbn [fst snd].
  rewrite andb_true_iff, !Z.eqb_eq. split.
  - intros [-> ->]. reflexivity.
  - intros H. inversion H. split; reflexivity.
Qed.

(** X25.  [resize] is never called with the size already in effect: each
    size passed to it differs from the one passed before, and the first
    from the size the terminal had when polling began. *)
Theorem poll_size_resizes_on_change_only (size : Size) (readings : list Size) :
  each_differs size (App.poll_size size readings).
Proof.
  revert size. induction readings as [|new_size readings IH]; intros size.
  - exact I.
  - cbn [App.poll_size].
    destruct (App.size_eqb size new_size) eqn:Heq.
    + apply IH.
    + split; [|apply IH].
      intros Hsame. apply size_eqb_eq in Hsame. congruence.
Qed.

Lemma last_cons {A : Type} (l : list A) (a d : A) :
  List.last (a :: l) d = List.last l a.
Proof.
  revert a d. induction l as [|b l IH]; intros a d.
  - reflexivity.
  - change (List.last (a :: b :: l) d) with (List.last (b :: l) d).
    rewrite !IH. reflexivity.
Qed.

(** X26.  Polling keeps up with the terminal: after any run of readings,
    the size last applied (or the initial size, if [resize] was never
    called) is the size last read. *)
Theorem poll_size_tracks_terminal (size : Size) (readings : list Size) :
  List.last (App.poll_size size readings) size = List.last readings size.
Proof.
  revert size. induction readings as [|new_size readings IH]; intros size.
  - reflexivity.
  - cbn [App.poll_size]. rewrite last_cons.
    destruct (App.size_eqb size new_size) eqn:Heq.
    + apply size_eqb_eq in Heq. subst new_size. apply IH.
    + rewrite last_cons. apply IH.
Qed.

(* ===================================================================== *)
(** * Positions along the chain of parents: proofs *)
(* ===================================================================== *)

(** X27.  [to_local] takes away exactly the offset [absolute_pos] adds: for
    any chain of ancestors, the local coordinates of a point plus the
    widget's absolute position are what the root makes of the point plus
    the root's own position. *)
Theorem to_local_undoes_absolute_pos (root_pos : Point)
    (root_to_local : Point -> Point) (ancestors : list Widget)
    (self : Widget) (point : Point) :
  fst (to_local root_to_local ancestors self point)
  + fst (absolute_pos root_pos ancestors self)
  = fst (root_to_local point) + fst root_pos
  /\ snd (to_local root_to_local ancestors self point)
     + snd (absolute_pos root_pos ancestors self)
     = snd (root_to_local point) + snd root_pos.
Proof.
  revert self. induction ancestors as [|parent above IH]; intros self.
  - cbn [to_local absolute_pos].
    destruct (root_to_local point) as [y x], root_pos as [ry rx].
    cbn [fst snd]. lia.
  - cbn [to_local absolute_pos]. specialize (IH parent).
    destruct (to_local root_to_local above parent point) as [y x],
             (absolute_pos root_pos above parent) as [ay ax].
    cbn [fst snd] in *. lia.
Qed.

Lemma on_widget_test (self : Widget) (y x : Z) :
  (0 <=? y) && (y <? height self) && ((0 <=? x) && (x <? width self)) = true
  <-> on_widget self (y, x).
Proof.
  unfold on_widget. cbn [fst snd].
  rewrite !andb_true_iff, !Z.leb_le, !Z.ltb_lt. tauto.
Qed.

(** X28.  A point collides with a widget exactly when it collides with the
    root and lies, in local coordinates, on the widget and on every one of
    its ancestors: what sticks out of an ancestor is not hit. *)
Theorem collides_point_within_ancestors (root_collides_point : Point -> bool)
    (root_to_local : Point -> Point) (ancestors : list Widget)
    (self : Widget) (point : Point) :
  collides_point root_collides_point root_to_local ancestors self point = true
  <-> root_collides_point point = true
      /\ Forall (fun '(above, w) => on_widget w (to_local root_to_local above w point))
                (lineage ancestors self).
Proof.
  revert self. induction ancestors as [|parent above IH]; intros self.
  - cbn [collides_point lineage].
    destruct (root_collides_point point); cbn [negb].
    + destruct (to_local root_to_local [] self point) as [y x] eqn:Hl.
      rewrite on_widget_test, <- Hl. clear Hl. split.
      * intros H. split; [reflexivity|]. constructor; [exact H|constructor].
      * intros [_ H]. inversion H; subst. assumption.
    + split; [discriminate|]. intros [H _]. discriminate.
  - cbn [collides_point lineage]. specialize (IH parent).
    destruct (collides_point root_collides_point root_to_local above parent point);
      cbn [negb].
    + destruct (to_local root_to_local (parent :: above) self point) as [y x] eqn:Hl.
      rewrite on_widget_test, <- Hl. clear Hl.
      destruct IH as [IH _]. specialize (IH eq_refl) as [Hroot Hall].
      split.
      * intros H. split; [exact Hroot|]. constructor; assumption.
      * intros [_ H]. inversion H; subst. assumption.
    + split; [discriminate|]. intros [Hroot H]. inversion H; subst.
      destruct IH as [_ IH]. apply IH. split; assumption.
Qed.

(** X29.  [collides_widget] measures the right edge of [self] from
    [self.left], not from its absolute column.  Where the widget's parent
    is at column 0 this is the same, and the test is then the usual one:
    two widgets with a positive height and width collide exactly when some
    cell of the screen belongs to both. *)
Theorem collides_widget_shares_a_cell (root_pos : Point)
    (ancestors : list Widget) (self : Widget)
    (widget_ancestors : list Widget) (widget : Widget) :
  snd (absolute_pos root_pos ancestors self) = left self ->
  0 < height self -> 0 < width self ->
  0 < height widget -> 0 < width widget ->
  collides_widget root_pos ancestors self widget_ancestors widget = true
  <-> exists cell,
        covers (absolute_pos root_pos ancestors self) self cell
        /\ covers (absolute_pos root_pos widget_ancestors widget) widget cell.
Proof.
  intros Hleft Hh Hw Hh' Hw'. unfold collides_widget, covers.
  destruct (absolute_pos root_pos ancestors self) as [st sl].
  destruct (absolute_pos root_pos widget_ancestors widget) as [ot ol].
  cbn [fst snd] in *. subst sl.
  rewrite negb_true_iff, !orb_false_iff, !Z.geb_leb, !Z.leb_gt.
  split.
  - intros [[[H1 H2] H3] H4].
    exists (Z.max st ot, Z.max (left self) ol). cbn [fst snd]. lia.
  - intros [[y x] H]. cbn [fst snd] in H. lia.
Qed.

(** X30.  Where the parent is not at column 0 the test goes wrong: a widget
    whose parent starts at least the widget's own width to the right of
    column 0 does not even collide with itself. *)
Theorem collides_widget_misses_itself (root_pos : Point)
    (ancestors : list Widget) (self : Widget) :
  width self <= snd (absolute_pos root_pos ancestors self) - left self ->
  collides_widget root_pos ancestors self ancestors self = false.
Proof.
  intros Hfar. unfold collides_widget.
  destruct (absolute_pos root_pos ancestors self) as [st sl].
  cbn [fst snd] in Hfar.
  rewrite negb_false_iff, !orb_true_iff, !Z.geb_leb, !Z.leb_le.
  right. lia.
Qed.

(** X24 at a batch with the exit key in the middle. *)
Lemma keys_after_exit_key_are_dropped_batch :
  App.read_from_input (Some (KeyPress 27))
    [App.Pressed (KeyPress 97); App.Moused (Mouse (0, 0) 1);
     App.Pressed (KeyPress 27); App.Pasted (Paste "x")]
  = ([App.dispatch_press_call (KeyPress 97); App.dispatch_click_call (Mouse (0, 0) 1)],
     true).
Proof.
  refine (keys_after_exit_key_are_dropped (KeyPress 27)
            [App.Pressed (KeyPress 97); App.Moused (Mouse (0, 0) 1)]
            [App.Pasted (Paste "x")] _).
  repeat constructor.
Defined.

(** X29 at two widgets of the root that overlap. *)
Lemma collides_widget_shares_a_cell_overlap :
  collides_widget (0, 0) [] (default_widget 1) [] (set_pos (default_widget 2) (5, 5))
  = true
  <-> exists cell,
        covers (0, 0) (default_widget 1) cell
        /\ covers (5, 5) (set_pos (default_widget 2) (5, 5)) cell.
Proof.
  refine (collides_widget_shares_a_cell (0, 0) [] (default_widget 1)
                                        [] (set_pos (default_widget 2) (5, 5))
                                        _ _ _ _ _).
  - reflexivity.
  - reflexivity.
  - reflexivity.
  - reflexivity.
  - reflexivity.
Defined.

(** X30 at a default widget whose parent, the root, is at column 20. *)
Lemma collides_widget_misses_itself_shifted :
  collides_widget (0, 20) [] (default_widget 1) [] (default_widget 1) = false.
Proof.
  refine (collides_widget_misses_itself (0, 20) [] (default_widget 1) _).
  cbn. lia.
Defined.
